(** * metricsd: the plugin engine, the endpoint scraper and the orchestrator

    A shallow embedding of the collection pipeline of metricsd
    (package [collector]: plugin definitions, validation, hot reload,
    scheduling and value parsing; the exposition-format parser of the
    HTTP collector; package [orchestrator]: label enrichment; package
    [config]: validation and environment overrides), with the
    properties the specification states about them.

    Go strings are byte strings: [string] (a list of 8-bit [ascii]).
    Go maps with string keys are [gmap string _].  A Go [int] and a
    [time.Duration] are 64-bit: arithmetic on them is written on [Z] with
    the wrap-around spelled out ([wrap64]).  Functions returning
    [(T, error)] return a [result T].

    Package [regexp] is an interface ([regexp.Engine]): the code is
    written against it, and what is proved about the patterns of a
    plugin definition holds for every engine.  The patterns the program
    itself compiles are decided by a reference engine, which reads text
    rune by rune as Go does. *)

From Stdlib Require Import ZArith Ascii String List Bool Lia DecimalString.
From Stdlib Require Import Floats.SpecFloat.
From stdpp Require Import base tactics option list strings gmap fin_maps.

Open Scope Z_scope.

(** ** Results and errors *)

(** A Go [error] value, kept as its message. *)
Definition error := string.

Inductive result (A : Type) : Type :=
| Ok (a : A)
| Err (e : error).
Arguments Ok {A} a.
Arguments Err {A} e.

Definition is_ok {A} (r : result A) : bool :=
  match r with Ok _ => true | Err _ => false end.

(** ** The parts of the Go standard library the code calls

    These are models of library functions, not code of the repository.
    They work on bytes, as Go strings do; where Go reads runes
    ([strings.TrimSpace], [strings.Fields], [strings.ToLower], [regexp])
    the UTF-8 encoding is spelled out. *)
Module Go.

Definition str (l : list ascii) : string := String.string_of_list_ascii l.
Definition chars (s : string) : list ascii := String.list_ascii_of_string s.
Definition byte (n : nat) : ascii := Ascii.ascii_of_nat n.

Definition in_range (lo hi c : ascii) : bool :=
  (Ascii.leb lo c && Ascii.leb c hi)%bool.

Definition is_digit (c : ascii) : bool := in_range "0" "9" c.
Definition is_upper (c : ascii) : bool := in_range "A" "Z" c.

(** The double quote character, and a string between double quotes (as
    [%q] and [strconv.Quote] print it, escapes apart). *)
Definition dq : string := String (byte 34) EmptyString.
Definition quote (s : string) : string := dq +:+ s +:+ dq.

(** *** Unicode white space, in UTF-8

    [unicode.IsSpace]: the ASCII characters tab, line feed, vertical tab,
    form feed, carriage return and space, and U+0085, U+00A0, U+1680,
    U+2000 to U+200A, U+2028, U+2029, U+202F, U+205F and U+3000.  Each is
    given by its UTF-8 bytes; none of the multi-byte encodings can start
    inside another rune. *)
Definition space_runes : list (list ascii) :=
  map (map byte)
    ([ [9%nat]; [10%nat]; [11%nat]; [12%nat]; [13%nat]; [32%nat];
       [194; 133]; [194; 160]; [225; 154; 128] ]%nat
     ++ map (fun b => [226; 128; b]%nat) (seq 128 11)
     ++ [ [226; 128; 168]; [226; 128; 169]; [226; 128; 175];
          [226; 129; 159]; [227; 128; 128] ]%nat).

Fixpoint strip_prefix (p s : list ascii) : option (list ascii) :=
  match p, s with
  | [], _ => Some s
  | a :: p', b :: s' => if Ascii.eqb a b then strip_prefix p' s' else None
  | _ :: _, [] => None
  end.

(** The rest of [s] after one leading white-space rune, if it starts with one. *)
Fixpoint strip_first (ps : list (list ascii)) (s : list ascii) : option (list ascii) :=
  match ps with
  | [] => None
  | p :: ps' =>
      match strip_prefix p s with
      | Some r => Some r
      | None => strip_first ps' s
      end
  end.

Definition space_prefix (s : list ascii) : option (list ascii) :=
  strip_first space_runes s.

Fixpoint trim_left_fuel (n : nat) (s : list ascii) : list ascii :=
  match n with
  | O => s
  | S n' =>
      match space_prefix s with
      | Some r => trim_left_fuel n' r
      | None => s
      end
  end.

Definition trim_left (s : list ascii) : list ascii :=
  trim_left_fuel (length s) s.

Definition space_suffix (r : list ascii) : option (list ascii) :=
  strip_first (map (@rev ascii) space_runes) r.

Fixpoint trim_right_fuel (n : nat) (r : list ascii) : list ascii :=
  match n with
  | O => r
  | S n' =>
      match space_suffix r with
      | Some r' => trim_right_fuel n' r'
      | None => r
      end
  end.

Definition trim_right (s : list ascii) : list ascii :=
  rev (trim_right_fuel (length s) (rev s)).

(** [strings.TrimSpace] *)
Definition TrimSpace (s : string) : string :=
  str (trim_right (trim_left (chars s))).

(** [strings.Fields]: the maximal runs of non-space bytes. *)
Fixpoint fields_fuel (n : nat) (cur : list ascii) (s : list ascii) : list (list ascii) :=
  let flush := match cur with [] => [] | _ => [rev cur] end in
  match n with
  | O => flush
  | S n' =>
      match s with
      | [] => flush
      | c :: s' =>
          match space_prefix s with
          | Some r => flush ++ fields_fuel n' [] r
          | None => fields_fuel n' (c :: cur) s'
          end
      end
  end.

Definition Fields (s : string) : list string :=
  map str (fields_fuel (S (String.length s)) [] (chars s)).

(** [strings.HasPrefix], [strings.HasSuffix] *)
Definition HasPrefix (s p : string) : bool :=
  match strip_prefix (chars p) (chars s) with Some _ => true | None => false end.

Definition HasSuffix (s p : string) : bool :=
  match strip_prefix (rev (chars p)) (rev (chars s)) with Some _ => true | None => false end.

Fixpoint drop_while {A} (f : A -> bool) (l : list A) : list A :=
  match l with
  | [] => []
  | x :: l' => if f x then drop_while f l' else l
  end.

Fixpoint take_while {A} (f : A -> bool) (l : list A) : list A :=
  match l with
  | [] => []
  | x :: l' => if f x then x :: take_while f l' else []
  end.

(** [strings.Trim(s, cutset)] for a cutset of ASCII bytes. *)
Definition Trim (s cutset : string) : string :=
  let cut c := existsb (Ascii.eqb c) (chars cutset) in
  str (rev (drop_while cut (rev (drop_while cut (chars s))))).

(** [strings.Contains] *)
Fixpoint contains_at (p s : list ascii) : bool :=
  match strip_prefix p s with
  | Some _ => true
  | None => match s with [] => false | _ :: s' => contains_at p s' end
  end.

Definition Contains (s sub : string) : bool := contains_at (chars sub) (chars s).

(** [strings.ToLower].  On a string of ASCII bytes Go lowers [A-Z] and
    keeps the rest.  The only runes outside ASCII whose lower case is an
    ASCII letter are U+0130 (to [i]) and U+212A (to [k]); every other
    byte above 127 stays outside ASCII in Go's result, and is kept as it
    is here.  So this agrees with Go whenever Go's result is ASCII. *)
Definition lower_byte (c : ascii) : ascii :=
  if is_upper c then byte (Ascii.nat_of_ascii c + 32) else c.

Fixpoint to_lower (s : list ascii) : list ascii :=
  match strip_prefix (map byte [196; 176]%nat) s with
  | Some _ =>
      match s with
      | _ :: _ :: r => "i"%char :: to_lower r
      | _ => s
      end
  | None =>
      match strip_prefix (map byte [226; 132; 170]%nat) s with
      | Some _ =>
          match s with
          | _ :: _ :: _ :: r => "k"%char :: to_lower r
          | _ => s
          end
      | None =>
          match s with
          | [] => []
          | c :: r => lower_byte c :: to_lower r
          end
      end
  end.

Definition ToLower (s : string) : string := str (to_lower (chars s)).

(** [filepath.Base] on a Unix system (separator [/], no volume names). *)
Definition is_sep (c : ascii) : bool := Ascii.eqb c "/".

Definition Base (path : string) : string :=
  match path with
  | EmptyString => "."
  | _ =>
      let stripped := drop_while is_sep (rev (chars path)) in
      let last := rev (take_while (fun c => negb (is_sep c)) stripped) in
      match last with
      | [] => "/"
      | _ => str last
      end
  end.


(** *** Package [unicode/utf8]

    Go's [regexp] reads its text rune by rune: a byte below 128 is a
    rune of width 1, a valid multi-byte encoding is a rune of width 2 to
    4, and any other byte is the rune U+FFFD of width 1. *)
Module utf8.

Definition RuneError : Z := 65533.

Definition code (c : ascii) : Z := Z.of_nat (Ascii.nat_of_ascii c).

Definition between (lo hi : Z) (c : ascii) : bool :=
  ((lo <=? code c) && (code c <=? hi))%bool.

(** [utf8.DecodeRuneInString]: the first rune of [s] and its width;
    [(RuneError, 0)] for the empty string and [(RuneError, 1)] for an
    encoding that is not valid (a stray or missing continuation byte, an
    over-long form, a surrogate, a value above U+10FFFF).  The masks and
    shifts of the Go code are written as arithmetic: for a first byte
    [x] in the range of its length, [x & mask] is [x] minus the lower
    end of the range, and for a continuation byte [b & 0x3F] is
    [b - 128]. *)
Definition DecodeRune (s : list ascii) : Z * nat :=
  match s with
  | [] => (RuneError, 0%nat)
  | c0 :: s1 =>
      let x := code c0 in
      if x <? 128 then (x, 1%nat)
      else if ((x <? 194) || (244 <? x))%bool then (RuneError, 1%nat)
      else
        let lo := if x =? 224 then 160 else if x =? 240 then 144 else 128 in
        let hi := if x =? 237 then 159 else if x =? 244 then 143 else 191 in
        match s1 with
        | [] => (RuneError, 1%nat)
        | c1 :: s2 =>
            if negb (between lo hi c1) then (RuneError, 1%nat)
            else if x <? 224 then ((x - 192) * 64 + (code c1 - 128), 2%nat)
            else
              match s2 with
              | [] => (RuneError, 1%nat)
              | c2 :: s3 =>
                  if negb (between 128 191 c2) then (RuneError, 1%nat)
                  else if x <? 240 then
                    ((x - 224) * 4096 + (code c1 - 128) * 64 + (code c2 - 128), 3%nat)
                  else
                    match s3 with
                    | [] => (RuneError, 1%nat)
                    | c3 :: _ =>
                        if negb (between 128 191 c3) then (RuneError, 1%nat)
                        else ((x - 240) * 262144 + (code c1 - 128) * 4096
                              + (code c2 - 128) * 64 + (code c3 - 128), 4%nat)
                    end
              end
        end
  end.

End utf8.

(** *** Package [regexp]

    The program is written against the interface of the package: the
    class [Engine] below.  Everything that is proved about patterns a
    user supplies is proved for every engine.

    For the patterns the program itself compiles, and for the examples,
    there is an engine that can be run: [reference].  It decides the
    patterns of a part of the RE2 syntax ([syntax.modelled]) by
    backtracking, and hands every other pattern to the library it is
    given ([Library]); so it never answers for a pattern it does not
    model. *)
Module regexp.

(** A compiled pattern.  It holds the source text it was compiled from
    (the field [expr] of Go's struct, which [re.String()] returns); what
    its methods answer is a function of that text and of their
    arguments. *)
Record Regexp := { expr : string }.

(** What the program uses of package [regexp].  [compile_error] is the
    error [Compile] answers for a pattern, [None] for a pattern that
    compiles; [NumSubexp] is the number of capture groups, and
    [FindAllStringSubmatch re s] is the call with [n = -1]. *)
Class Engine := {
  compile_error : string -> option error;
  NumSubexp : Regexp -> nat;
  MatchString : Regexp -> string -> bool;
  FindStringSubmatch : Regexp -> string -> list string;
  FindAllStringSubmatch : Regexp -> string -> list (list string)
}.
Arguments compile_error {E} pattern : rename.
Arguments NumSubexp {E} re : rename.
Arguments MatchString {E} re s : rename.
Arguments FindStringSubmatch {E} re s : rename.
Arguments FindAllStringSubmatch {E} re s : rename.

(** [regexp.Compile] *)
Definition Compile {E : Engine} (pattern : string) : result Regexp :=
  match compile_error pattern with
  | Some err => Err err
  | None => Ok {| expr := pattern |}
  end.

(** [regexp.MustCompile] panics where [Compile] answers an error; for a
    package variable that ends the program before [main].  The patterns
    of the package variables compile (see [patterns_compile]). *)
Definition MustCompile (pattern : string) : Regexp := {| expr := pattern |}.

(** What the documentation of the package promises and the statements
    use: [FindStringSubmatch] answers nil (the empty list) or one string
    for the match and one for each capture group. *)
Definition Contract (E : Engine) : Prop :=
  forall re s,
    FindStringSubmatch re s = [] \/
    length (FindStringSubmatch re s) = S (NumSubexp re).

(** **** The modelled syntax (package [regexp/syntax])

    Literals, [.], classes [[...]] with ranges and negation, the Perl
    classes [\d \w \s] and their complements, groups (capturing and
    [(?:...)]), [* + ?] (greedy, or lazy with a trailing [?]),
    alternation, [^] and [$] (beginning and end of the text: the flags
    of [regexp.Compile] do not set multi-line mode), over ASCII
    patterns.  A [*] or [+] is in the modelled syntax only when what it
    repeats cannot match the empty string; then every iteration consumes
    text, and Go's leftmost-first matching is plain backtracking:
    alternatives left to right, greedy operators the longest run first.

    Counted repetition [{n,m}], flags, named groups, [\b], [\p], POSIX
    classes, the numeric escapes, patterns with bytes above 127, and
    repetitions of something that can match the empty string are not in
    the modelled syntax; nor is any pattern Go rejects. *)
Module syntax.

Inductive Regexp : Type :=
| EmptyMatch
| CharClass (neg : bool) (rs : list (Z * Z))
| BeginText
| EndText
| Concat (a b : Regexp)
| Alternate (a b : Regexp)
| Star (greedy : bool) (a : Regexp)
| Plus (greedy : bool) (a : Regexp)
| Quest (greedy : bool) (a : Regexp)
| Capture (i : nat) (a : Regexp).

(** Whether the rune [r] is in the class: the ranges are inclusive. *)
Definition class_mem (neg : bool) (rs : list (Z * Z)) (r : Z) : bool :=
  xorb neg (existsb (fun '(lo, hi) => (lo <=? r) && (r <=? hi))%bool rs).

(** Whether the regexp can match the empty string. *)
Fixpoint nullable (re : Regexp) : bool :=
  match re with
  | EmptyMatch | BeginText | EndText => true
  | CharClass _ _ => false
  | Concat a b => (nullable a && nullable b)%bool
  | Alternate a b => (nullable a || nullable b)%bool
  | Star _ _ | Quest _ _ => true
  | Plus _ a | Capture _ a => nullable a
  end.

(** The largest index of a capture group. *)
Fixpoint MaxCap (re : Regexp) : nat :=
  match re with
  | EmptyMatch | CharClass _ _ | BeginText | EndText => 0%nat
  | Concat a b | Alternate a b => (MaxCap a `max` MaxCap b)%nat
  | Star _ a | Plus _ a | Quest _ a => MaxCap a
  | Capture i a => (i `max` MaxCap a)%nat
  end.

Definition range (lo hi : ascii) : Z * Z := (utf8.code lo, utf8.code hi).

Definition lit (c : ascii) : Regexp := CharClass false [range c c].

Definition digit_rs : list (Z * Z) := [range "0" "9"]%char.
Definition word_rs : list (Z * Z) :=
  [range "0" "9"; range "A" "Z"; range "_" "_"; range "a" "z"]%char.
Definition space_rs : list (Z * Z) := [(9, 10); (12, 13); (32, 32)].

Definition is_alnum (c : ascii) : bool :=
  (is_digit c || is_upper c || in_range "a" "z" c)%bool.

Definition is_ascii (c : ascii) : bool := (Ascii.nat_of_ascii c <? 128)%nat.

(** [\c] for a single character: the control escapes and escaped punctuation. *)
Definition escape_char (c : ascii) : option ascii :=
  if Ascii.eqb c "n" then Some (byte 10)
  else if Ascii.eqb c "t" then Some (byte 9)
  else if Ascii.eqb c "r" then Some (byte 13)
  else if Ascii.eqb c "f" then Some (byte 12)
  else if Ascii.eqb c "v" then Some (byte 11)
  else if Ascii.eqb c "a" then Some (byte 7)
  else if (is_ascii c && negb (is_alnum c))%bool then Some c
  else None.

(** [\d \w \s] and their complements. *)
Definition perl_class (c : ascii) : option (bool * list (Z * Z)) :=
  if Ascii.eqb c "d" then Some (false, digit_rs)
  else if Ascii.eqb c "D" then Some (true, digit_rs)
  else if Ascii.eqb c "w" then Some (false, word_rs)
  else if Ascii.eqb c "W" then Some (true, word_rs)
  else if Ascii.eqb c "s" then Some (false, space_rs)
  else if Ascii.eqb c "S" then Some (true, space_rs)
  else None.

Definition class_char (s : list ascii) : option (ascii * list ascii) :=
  match s with
  | [] => None
  | c :: r =>
      if Ascii.eqb c "\" then
        match r with
        | [] => None
        | e :: r' => match escape_char e with Some x => Some (x, r') | None => None end
        end
      else if is_ascii c then Some (c, r) else None
  end.

(** The items of a bracket class up to its closing bracket. *)
Fixpoint parse_class (fuel : nat) (first : bool) (s : list ascii)
    (acc : list (Z * Z)) : option (list (Z * Z) * list ascii) :=
  match fuel with
  | O => None
  | S f =>
      match s with
      | [] => None
      | c :: r =>
          if (Ascii.eqb c "]" && negb first)%bool then Some (acc, r)
          else if (Ascii.eqb c "[" && match r with c2 :: _ => Ascii.eqb c2 ":" | [] => false end)%bool
          then None
          else
            match (if Ascii.eqb c "\" then
                     match r with e :: r' =>
                       match perl_class e with
                       | Some (false, rs) => Some (Some (rs, r'))
                       | Some (true, _) => None
                       | None => Some None
                       end
                     | [] => None end
                   else Some None) with
            | None => None
            | Some (Some (rs, r')) => parse_class f false r' (acc ++ rs)
            | Some None =>
                match class_char s with
                | None => None
                | Some (lo, r1) =>
                    match r1 with
                    | d :: c2 :: r2 =>
                        if (Ascii.eqb d "-" && negb (Ascii.eqb c2 "]"))%bool then
                          match class_char (c2 :: r2) with
                          | Some (hi, r3) =>
                              if Ascii.leb lo hi then parse_class f false r3 (acc ++ [range lo hi])
                              else None
                          | None => None
                          end
                        else parse_class f false r1 (acc ++ [range lo lo])
                    | _ => parse_class f false r1 (acc ++ [range lo lo])
                    end
                end
            end
      end
  end.

Definition is_rep (c : ascii) : bool :=
  (Ascii.eqb c "*" || Ascii.eqb c "+" || Ascii.eqb c "?" || Ascii.eqb c "{")%bool.

(** A repetition operator after an atom, with its lazy mark.  A [*] or
    [+] over something that can match the empty string, a counted
    repetition and a second operator in a row are not modelled. *)
Definition parse_rep (a : Regexp) (s : list ascii) : option (Regexp * list ascii) :=
  match s with
  | [] => Some (a, s)
  | c :: r =>
      if Ascii.eqb c "{" then None
      else if negb (is_rep c) then Some (a, s)
      else if (negb (Ascii.eqb c "?") && nullable a)%bool then None
      else
        let '(greedy, r1) :=
          match r with
          | q :: r' => if Ascii.eqb q "?" then (false, r') else (true, r)
          | [] => (true, r)
          end in
        let node :=
          if Ascii.eqb c "*" then Star greedy a
          else if Ascii.eqb c "+" then Plus greedy a
          else Quest greedy a in
        match r1 with
        | c' :: _ => if is_rep c' then None else Some (node, r1)
        | [] => Some (node, r1)
        end
  end.

Inductive nonterminal := NAlt | NConcat | NRepeat | NAtom.

(** Recursive descent; [n] is the number of the next capture group. *)
Fixpoint parse (fuel : nat) (k : nonterminal) (s : list ascii) (n : nat)
    : option (Regexp * list ascii * nat) :=
  match fuel with
  | O => None
  | S f =>
      match k with
      | NAlt =>
          match parse f NConcat s n with
          | Some (a, r, n1) =>
              match r with
              | c :: r' =>
                  if Ascii.eqb c "|" then
                    match parse f NAlt r' n1 with
                    | Some (b, r'', n2) => Some (Alternate a b, r'', n2)
                    | None => None
                    end
                  else Some (a, r, n1)
              | [] => Some (a, r, n1)
              end
          | None => None
          end
      | NConcat =>
          match s with
          | [] => Some (EmptyMatch, s, n)
          | c :: _ =>
              if (Ascii.eqb c "|" || Ascii.eqb c ")")%bool then Some (EmptyMatch, s, n)
              else
                match parse f NRepeat s n with
                | Some (a, r, n1) =>
                    match parse f NConcat r n1 with
                    | Some (EmptyMatch, r', n2) => Some (a, r', n2)
                    | Some (b, r', n2) => Some (Concat a b, r', n2)
                    | None => None
                    end
                | None => None
                end
          end
      | NRepeat =>
          match parse f NAtom s n with
          | Some (a, r, n1) =>
              match parse_rep a r with
              | Some (a', r') => Some (a', r', n1)
              | None => None
              end
          | None => None
          end
      | NAtom =>
          match s with
          | [] => None
          | c :: r =>
              if Ascii.eqb c "(" then
                match r with
                | q :: r1 =>
                    if Ascii.eqb q "?" then
                      match r1 with
                      | c2 :: r2 =>
                          if Ascii.eqb c2 ":" then
                            match parse f NAlt r2 n with
                            | Some (a, z :: r3, n1) =>
                                if Ascii.eqb z ")" then Some (a, r3, n1) else None
                            | _ => None
                            end
                          else None
                      | [] => None
                      end
                    else
                      match parse f NAlt r (S n) with
                      | Some (a, z :: r3, n1) =>
                          if Ascii.eqb z ")" then Some (Capture n a, r3, n1) else None
                      | _ => None
                      end
                | [] => None
                end
              else if Ascii.eqb c "[" then
                let '(neg, r1) :=
                  match r with
                  | h :: r' => if Ascii.eqb h "^" then (true, r') else (false, r)
                  | [] => (false, r)
                  end in
                match parse_class (S (length r1)) true r1 [] with
                | Some (rs, r2) => Some (CharClass neg rs, r2, n)
                | None => None
                end
              else if Ascii.eqb c "." then Some (CharClass true [(10, 10)], r, n)
              else if Ascii.eqb c "^" then Some (BeginText, r, n)
              else if Ascii.eqb c "$" then Some (EndText, r, n)
              else if Ascii.eqb c "\" then
                match r with
                | e :: r1 =>
                    match perl_class e with
                    | Some (neg, rs) => Some (CharClass neg rs, r1, n)
                    | None =>
                        if Ascii.eqb e "A" then Some (BeginText, r1, n)
                        else if Ascii.eqb e "z" then Some (EndText, r1, n)
                        else
                          match escape_char e with
                          | Some x => Some (lit x, r1, n)
                          | None => None
                          end
                    end
                | [] => None
                end
              else if is_rep c then None
              else if is_ascii c then Some (lit c, r, n)
              else None
          end
      end
  end.

(** The regexp of a pattern of the modelled syntax; [None] for every
    other pattern, valid or not. *)
Definition modelled (pattern : string) : option Regexp :=
  match parse (4 * String.length pattern + 8) NAlt (chars pattern) 1%nat with
  | Some (re, [], _) => Some re
  | _ => None
  end.

End syntax.

(** **** Matching by backtracking *)
Module backtrack.
Import syntax.

(** A thread: the offset reached, the text left, and the bounds of the
    groups closed so far. *)
Record thread := Thread {
  pos : nat;
  rest : list ascii;
  caps : list (option (nat * nat))
}.

Definition or_else {A} (x : option A) (y : unit -> option A) : option A :=
  match x with
  | Some a => Some a
  | None => y tt
  end.

(** The iterations of a repetition of [body], at most [n] of them.  In
    the modelled syntax an iteration consumes at least one byte, so one
    more than the length of the text left is never used up. *)
Fixpoint star_loop (body : thread -> (thread -> option thread) -> option thread)
    (greedy : bool) (k : thread -> option thread) (n : nat) (t : thread)
    : option thread :=
  match n with
  | O => k t
  | S n' =>
      let again (_ : unit) := body t (star_loop body greedy k n') in
      if greedy then or_else (again tt) (fun _ => k t)
      else or_else (k t) again
  end.

(** [run re t k]: match [re] at [t] and continue with [k]; the first
    success in the order of preference is the answer.  A class consumes
    one rune. *)
Fixpoint run (re : Regexp) (t : thread) (k : thread -> option thread) {struct re}
    : option thread :=
  match re with
  | EmptyMatch => k t
  | CharClass neg rs =>
      match utf8.DecodeRune (rest t) with
      | (_, O) => None
      | (r, w) =>
          if class_mem neg rs r then k (Thread (pos t + w) (drop w (rest t)) (caps t))
          else None
      end
  | BeginText => if (pos t =? 0)%nat then k t else None
  | EndText => match rest t with [] => k t | _ :: _ => None end
  | Concat a b => run a t (fun t' => run b t' k)
  | Alternate a b => or_else (run a t k) (fun _ => run b t k)
  | Star greedy a => star_loop (run a) greedy k (S (length (rest t))) t
  | Plus greedy a =>
      run a t (fun t1 => star_loop (run a) greedy k (S (length (rest t1))) t1)
  | Quest greedy a =>
      if greedy then or_else (run a t k) (fun _ => k t)
      else or_else (k t) (fun _ => run a t k)
  | Capture i a =>
      run a t (fun t' => k (Thread (pos t') (rest t') (<[i := Some (pos t, pos t')]> (caps t'))))
  end.

(** The leftmost match at or after offset [p], where [r] is the text
    from [p] on: the start moves on rune by rune, and the empty text at
    the end is tried too.  [n] bounds the number of starts. *)
Fixpoint search (n : nat) (re : Regexp) (p : nat) (r : list ascii)
    : option (list (option (nat * nat))) :=
  match n with
  | O => None
  | S n' =>
      match run re (Thread p r (replicate (S (MaxCap re)) None)) Some with
      | Some t => Some (<[0%nat := Some (p, pos t)]> (caps t))
      | None =>
          match utf8.DecodeRune r with
          | (_, O) => None
          | (_, w) => search n' re (p + w) (drop w r)
          end
      end
  end.

Definition find_from (re : Regexp) (p : nat) (r : list ascii)
    : option (list (option (nat * nat))) :=
  search (S (length r)) re p r.

(** The text of each group, empty for a group that took no part. *)
Definition submatches (s : list ascii) (m : list (option (nat * nat))) : list string :=
  map (fun g => match g with
                | Some (a, b) => str (take (b - a) (drop a s))
                | None => EmptyString
                end) m.

Definition matches (re : Regexp) (s : string) : bool :=
  match find_from re 0 (chars s) with Some _ => true | None => false end.

Definition find (re : Regexp) (s : string) : list string :=
  match find_from re 0 (chars s) with
  | Some m => submatches (chars s) m
  | None => []
  end.

(** Successive matches that do not overlap: the search goes on from the
    end of a match, or one rune further after an empty match, and an
    empty match at the end of the previous match is dropped. *)
Fixpoint all_matches (fuel : nat) (re : Regexp) (s : list ascii) (p : nat)
    (prev : option nat) : list (list string) :=
  match fuel with
  | O => []
  | S f =>
      if (length s <? p)%nat then []
      else
        match find_from re p (drop p s) with
        | None => []
        | Some m =>
            match m !! 0%nat with
            | Some (Some (a, b)) =>
                let accept := negb ((b =? p)%nat && bool_decide (prev = Some a)) in
                let p' :=
                  if (b =? p)%nat then
                    match utf8.DecodeRune (drop p s) with
                    | (_, O) => S (length s)
                    | (_, w) => (p + w)%nat
                    end
                  else b in
                (if accept then [submatches s m] else [])
                ++ all_matches f re s p' (Some b)
            | _ => []
            end
        end
  end.

Definition find_all (re : Regexp) (s : string) : list (list string) :=
  all_matches (S (String.length s)) re (chars s) 0 None.

(** A runner whose threads, when they succeed, went through the
    continuation with as many group slots as they started with. *)
Definition threads_through (f : thread -> (thread -> option thread) -> option thread) : Prop :=
  forall t k tf, f t k = Some tf ->
    exists t', k t' = Some tf /\ length (caps t') = length (caps t).

End backtrack.

(** **** The engines *)

(** What Go's package answers for the patterns outside the modelled
    syntax: the calls of [Engine], on the source text of the pattern. *)
Record Library := {
  lib_compile_error : string -> option error;
  lib_NumSubexp : string -> nat;
  lib_MatchString : string -> string -> bool;
  lib_FindStringSubmatch : string -> string -> list string;
  lib_FindAllStringSubmatch : string -> string -> list (list string)
}.

(** The reference engine over the library [lib]: the patterns of the
    modelled syntax compile and are matched by backtracking; for every
    other pattern [lib] answers. *)
Definition reference (lib : Library) : Engine :=
  {| compile_error := fun pattern =>
       match syntax.modelled pattern with
       | Some _ => None
       | None => lib_compile_error lib pattern
       end;
     NumSubexp := fun re =>
       match syntax.modelled (expr re) with
       | Some r => syntax.MaxCap r
       | None => lib_NumSubexp lib (expr re)
       end;
     MatchString := fun re s =>
       match syntax.modelled (expr re) with
       | Some r => backtrack.matches r s
       | None => lib_MatchString lib (expr re) s
       end;
     FindStringSubmatch := fun re s =>
       match syntax.modelled (expr re) with
       | Some r => backtrack.find r s
       | None => lib_FindStringSubmatch lib (expr re) s
       end;
     FindAllStringSubmatch := fun re s =>
       match syntax.modelled (expr re) with
       | Some r => backtrack.find_all r s
       | None => lib_FindAllStringSubmatch lib (expr re) s
       end |}.

(** No library at all: the stand-in that closes the examples.  With it
    the reference engine knows the modelled syntax and nothing else,
    which is all the program's own patterns and the examples need; what
    it answers for another pattern says nothing about Go. *)
Definition no_library : Library :=
  {| lib_compile_error := fun pattern => Some ("error parsing regexp: `" +:+ pattern +:+ "`");
     lib_NumSubexp := fun _ => 0%nat;
     lib_MatchString := fun _ _ => false;
     lib_FindStringSubmatch := fun _ _ => [];
     lib_FindAllStringSubmatch := fun _ _ => [] |}.

(** The engine of every statement that names none. *)
#[global] Instance standalone : Engine := reference no_library.

End regexp.

(** *** [float64] and [strconv.ParseFloat]

    A [float64] is an IEEE 754 binary64 value ([spec_float] with 53 bits
    of precision and infinities at exponent 1024). *)
Definition float64 := spec_float.

Definition prec64 : Z := 53.
Definition emax64 : Z := 1024.

(** The [float64] nearest to an integer. *)
Definition float64_of_Z (z : Z) : float64 := binary_normalize prec64 emax64 z 0 false.

Module strconv.

Definition lower (c : ascii) : ascii := lower_byte c.

Definition is_hex_digit (c : ascii) : bool :=
  (is_digit c || in_range "a" "f" (lower c))%bool.

Definition digit_val (c : ascii) : Z :=
  if is_digit c then Z.of_nat (Ascii.nat_of_ascii c) - 48
  else Z.of_nat (Ascii.nat_of_ascii (lower c)) - 87.

Definition eq_fold (a b : list ascii) : bool :=
  bool_decide (map lower a = map lower b).

(** [NaN], and [Inf] and [Infinity] with an optional sign, in any case. *)
Definition special (s : list ascii) : option float64 :=
  if eq_fold s (chars "nan") then Some S754_nan
  else
    let '(neg, body) :=
      match s with
      | c :: r =>
          if Ascii.eqb c "+" then (false, r)
          else if Ascii.eqb c "-" then (true, r)
          else (false, s)
      | [] => (false, s)
      end in
    if (eq_fold body (chars "inf") || eq_fold body (chars "infinity"))%bool
    then Some (S754_infinity neg) else None.

(** Underscores may only separate digits (a base prefix counts as a digit). *)
Fixpoint sep_ok (hex : bool) (saw : ascii) (s : list ascii) : bool :=
  match s with
  | [] => negb (Ascii.eqb saw "_")
  | c :: r =>
      if (is_digit c || (hex && in_range "a" "f" (lower c)))%bool then sep_ok hex "0" r
      else if Ascii.eqb c "_" then
        if Ascii.eqb saw "0" then sep_ok hex "_" r else false
      else if Ascii.eqb saw "_" then false
      else sep_ok hex "!" r
  end.

Definition drop_sign (s : list ascii) : bool * list ascii :=
  match s with
  | c :: r =>
      if Ascii.eqb c "+" then (false, r)
      else if Ascii.eqb c "-" then (true, r)
      else (false, s)
  | [] => (false, s)
  end.

Definition underscoreOK (s : list ascii) : bool :=
  let body := snd (drop_sign s) in
  match body with
  | z :: x :: r =>
      if (Ascii.eqb z "0" &&
          (Ascii.eqb (lower x) "b" || Ascii.eqb (lower x) "o" || Ascii.eqb (lower x) "x"))%bool
      then sep_ok (Ascii.eqb (lower x) "x") "0" r
      else sep_ok false "^" body
  | _ => sep_ok false "^" body
  end.

(** The digits of the mantissa: the integer they spell in [base], how
    many came after the point, whether a digit was seen, and the rest. *)
Fixpoint read_mantissa (hex sawdot : bool) (mant frac : Z) (sawdigits : bool)
    (s : list ascii) : Z * Z * bool * list ascii :=
  match s with
  | [] => (mant, frac, sawdigits, s)
  | c :: r =>
      if Ascii.eqb c "." then
        if sawdot then (mant, frac, sawdigits, s)
        else read_mantissa hex true mant frac sawdigits r
      else if (if hex then is_hex_digit c else is_digit c) then
        read_mantissa hex sawdot
          (mant * (if hex then 16 else 10) + digit_val c)
          (if sawdot then frac + 1 else frac) true r
      else (mant, frac, sawdigits, s)
  end.

(** The digits of the exponent; the count stops growing at five digits. *)
Fixpoint read_exp (e : Z) (s : list ascii) : Z * list ascii :=
  match s with
  | c :: r =>
      if is_digit c then read_exp (if e <? 10000 then e * 10 + digit_val c else e) r
      else (e, s)
  | [] => (e, s)
  end.

Definition read_exponent (s : list ascii) : option (Z * list ascii) :=
  let '(eneg, r) := drop_sign s in
  match r with
  | c :: _ =>
      if is_digit c then
        let '(e, r') := read_exp 0 r in Some (if eneg then - e else e, r')
      else None
  | [] => None
  end.

(** The exact value [(-1)^neg * mant * base^exp], rounded to nearest even. *)
Definition round_binary (neg : bool) (mant e2 : Z) : float64 :=
  match mant with
  | Zpos m => binary_round prec64 emax64 neg m e2
  | _ => S754_zero neg
  end.

Definition round_decimal (neg : bool) (mant e10 : Z) : float64 :=
  match mant with
  | Zpos m =>
      if 0 <=? e10 then round_binary neg (mant * 10 ^ e10) 0
      else
        let d := 10 ^ (- e10) in
        let s := 55 + Z.log2 d + 1 in
        let q := (mant * 2 ^ s) / d in
        let r := (mant * 2 ^ s) mod d in
        let loc := if r =? 0 then loc_Exact else loc_Inexact (Z.compare (2 * r) d) in
        binary_round_aux prec64 emax64 neg q (- s) loc
  | _ => S754_zero neg
  end.

Definition is_inf (f : float64) : bool :=
  match f with S754_infinity _ => true | _ => false end.

Definition syntax_error (s : string) : error :=
  "strconv.ParseFloat: parsing " +:+ quote s +:+ ": invalid syntax".
Definition range_error (s : string) : error :=
  "strconv.ParseFloat: parsing " +:+ quote s +:+ ": value out of range".

(** [strconv.ParseFloat(s, 64)]: decimal and hexadecimal floating-point
    literals, infinities and NaN; the whole of [s] must be consumed. *)
Definition ParseFloat (s : string) : result float64 :=
  match special (chars s) with
  | Some f => Ok f
  | None =>
      if negb (underscoreOK (chars s)) then Err (syntax_error s)
      else
        let '(neg, body) := drop_sign (filter (fun c => c <> "_"%char) (chars s)) in
        let '(hex, digits) :=
          match body with
          | z :: x :: c :: r =>
              if (Ascii.eqb z "0" && Ascii.eqb (lower x) "x")%bool then (true, c :: r)
              else (false, body)
          | _ => (false, body)
          end in
        let '(mant, frac, sawdigits, r) := read_mantissa hex false 0 0 false digits in
        if negb sawdigits then Err (syntax_error s)
        else
          let finish (f : float64) :=
            if is_inf f then Err (range_error s) else Ok f in
          match r with
          | [] =>
              if hex then Err (syntax_error s)
              else finish (round_decimal neg mant (- frac))
          | c :: r1 =>
              if Ascii.eqb (lower c) (if hex then "p" else "e")%char then
                match read_exponent r1 with
                | Some (e, []) =>
                    if hex then finish (round_binary neg mant (e - 4 * frac))
                    else finish (round_decimal neg mant (e - frac))
                | _ => Err (syntax_error s)
                end
              else Err (syntax_error s)
          end
  end.

End strconv.

(** *** [bufio.Scanner] with the default split function [ScanLines]

    Each token is a line without its line feed and without one trailing
    carriage return; a last line without line feed is a token when it is
    not empty.  The scanner's buffer holds 65536 bytes: [Scan] reports
    false, and the loop over the lines ends, at a line that does not fit. *)
Module bufio.

Definition MaxScanTokenSize : Z := 64 * 1024.

Definition dropCR (rev_line : list ascii) : list ascii :=
  match rev_line with
  | c :: r => if Ascii.eqb c (byte 13) then r else rev_line
  | [] => rev_line
  end.

Fixpoint scan (cur : list ascii) (s : list ascii) : list (list ascii) :=
  let fits := Z.of_nat (length cur) <? MaxScanTokenSize in
  match s with
  | [] =>
      match cur with
      | [] => []
      | _ => if fits then [rev (dropCR cur)] else []
      end
  | c :: r =>
      if Ascii.eqb c (byte 10) then
        if fits then rev (dropCR cur) :: scan [] r else []
      else scan (c :: cur) r
  end.

(** The successive values of [scanner.Text()] for a scanner over [body]. *)
Definition ScanLines (body : string) : list string := map str (scan [] (chars body)).

End bufio.

(** *** Package [time]

    A [time.Time] is an instant, in nanoseconds from the Unix epoch; a
    [time.Duration] is a signed 64-bit count of nanoseconds. *)
Module time.

Definition Time := Z.
Definition Duration := Z.

Definition wrap64 (z : Z) : Z := (z + 2 ^ 63) mod 2 ^ 64 - 2 ^ 63.

Definition Second : Duration := 1000000000.

(** [time.Duration(n) * time.Second] for a Go [int] [n], in 64-bit arithmetic. *)
Definition seconds (n : Z) : Duration := wrap64 (n * Second).

(** The zero [time.Time]: January 1 of year 1. *)
Definition zero : Time := -62135596800 * Second.

Definition Before (t u : Time) : bool := t <? u.
Definition After (t u : Time) : bool := u <? t.
Definition Add (t : Time) (d : Duration) : Time := t + d.

End time.

(** *** Package [context]

    Of a context the code observes whether it is already done
    ([ctx.Err()]) and how much time it leaves.  A context made with a
    timeout that is not positive is done from the start. *)
Module context.

Record Context := {
  Err : option error;
  Remaining : option time.Duration
}.

Definition Background : Context := {| Err := None; Remaining := None |}.

Definition DeadlineExceeded : error := "context deadline exceeded".

Definition WithTimeout (ctx : Context) (d : time.Duration) : Context :=
  {| Err := match Err ctx with
            | Some e => Some e
            | None => if d <=? 0 then Some DeadlineExceeded else None
            end;
     Remaining := Some (match Remaining ctx with
                        | Some r => Z.min r d
                        | None => d
                        end) |}.

End context.

(** [filepath.Ext]: the suffix of the last path element from its last dot. *)
Definition Ext (path : string) : string :=
  let last := rev (take_while (fun c => negb (is_sep c)) (rev (chars path))) in
  let after := take_while (fun c => negb (Ascii.eqb c ".")) (rev last) in
  if (length after <? length last)%nat
  then str ("."%char :: rev after) else EmptyString.

(** [%d] of [fmt] for an integer. *)
Definition itoa (z : Z) : string :=
  DecimalString.NilZero.string_of_int (Z.to_int z).


End Go.

(** ** A call that may panic

    A Go call either returns or panics (here: the method call on a nil
    [*regexp.Regexp]); nothing in these packages recovers. *)
Inductive outcome (A : Type) : Type :=
| Returns (a : A)
| Panics.
Arguments Returns {A} a.
Arguments Panics {A}.

Definition outcome_bind {A B} (m : outcome A) (f : A -> outcome B) : outcome B :=
  match m with
  | Returns a => f a
  | Panics => Panics
  end.

Notation "'do' x <- m ; k" := (outcome_bind m (fun x => k))
  (at level 10, x pattern, m at level 100, k at level 200).

(** [try x <- r ; k]: the early return of a Go function at [err != nil]. *)
Definition result_bind {A B} (m : result A) (f : A -> result B) : result B :=
  match m with
  | Ok a => f a
  | Err e => Err e
  end.

Notation "'try' x <- m ; k" := (result_bind m (fun x => k))
  (at level 10, x pattern, m at level 100, k at level 200).

(** [fail_if c e ; k]: [if c { return e }]. *)
Definition fail_if (c : bool) (e : error) : result unit :=
  if c then Err e else Ok tt.

(** A loop that copies or merges a map: [for k, v := range src { dst[k] = v }]. *)
Definition assign_all (src dst : gmap string string) : gmap string string :=
  map_fold (fun k v acc => <[k := v]> acc) dst src.

(** ** What the operating system and the libraries outside this model answer

    One [World] describes the environment during one call: the file
    system, the processes and servers the plugins talk to, the clock,
    and the JSON decoder of [encoding/json]. *)
Module os.

Inductive StatResult :=
| StatOk (isDir : bool)
| StatNotExist (e : error)
| StatErr (e : error).

Record DirEntry := {
  Name : string;
  IsDir : bool;
  ModTime : result Go.time.Time   (* [entry.Info()] and its [ModTime()] *)
}.

End os.

Module http.

Definition StatusOK : Z := 200.

Record Response := {
  StatusCode : Z;
  ContentType : string;            (* [resp.Header.Get("Content-Type")] *)
  Body : result string             (* [io.ReadAll(resp.Body)] *)
}.

End http.

(** The dynamic type of a value in a [map[string]interface{}]. *)
Inductive any :=
| AFloat64 (v : Go.float64)
| AFloat32 (v : Go.float64)
| AInt (v : Z)
| AInt64 (v : Z)
| AInt32 (v : Z)
| AOther.

Module collector.
Import Go.

(** *** Metrics

    Modelled from the spec: the declaration of the [Metric] struct (file
    [collector.go], not among the sources) is taken from section 3 of
    the specification and from the struct literals of the collectors: a
    name, a label map, a 64-bit float value and a type string.  A nil
    label map is [None]. *)
Module Metric.
Record t := mk {
  Name : string;
  Labels : option (gmap string string);
  Value : float64;
  Type' : string
}.
End Metric.

(** *** Plugin definitions *)

Definition pluginSourceCommand : string := "command".
Definition pluginSourceHTTP : string := "http".
Definition pluginSourceFile : string := "file".

Definition pluginParserNumber : string := "number".
Definition pluginParserRegex : string := "regex".

Definition defaultPluginTimeout : time.Duration := 10 * time.Second.

Record PluginParser := {
  Mode : string;
  Regex : string
}.

(** The field [Command] of [CommandSource] is [Command_] here, and the
    fields of [EndpointConfig] are prefixed, to keep them apart from the
    fields of [PluginDefinition] with the same names. *)
Record CommandSource := { Command_ : list string }.
Record HTTPSource := { URL : string }.
Record FileSource := { Path : string }.

(** A Go [int] field holds a 64-bit integer; a pointer field is an option;
    the label map, which the code only reads, is empty when it is nil. *)
Record PluginDefinition := {
  Name : string;
  Metric : string;
  MetricType : string;
  IntervalSeconds : Z;
  Labels : gmap string string;
  TimeoutSeconds : Z;
  Parser : PluginParser;
  Command : option CommandSource;
  HTTP : option HTTPSource;
  File : option FileSource
}.

(** From here on the package is written against an engine [E] of
    package [regexp]. *)
Section WithEngine.
Context {E : regexp.Engine}.

Record parsedParser := {
  mode : string;
  regex : option regexp.Regexp;
  rawRegex : string;
  rawMode : string
}.

Record pluginRuntime := {
  def : PluginDefinition;
  nextRun : time.Time;
  interval : time.Duration;
  timeout : time.Duration;
  parser : parsedParser;
  source : string;
  metricKey : string
}.

Record PluginCollector := {
  prefix : string;
  plugins : list pluginRuntime;
  pluginsDir : string;
  lastMod : time.Time
}.

Record EndpointConfig := {
  endpoint_Name : string;
  endpoint_URL : string
}.

Record HTTPCollector := {
  endpoints : list EndpointConfig;
  client_Timeout : time.Duration
}.

Record World := {
  Stat : string -> os.StatResult;
  ReadDir : string -> result (list os.DirEntry);
  ReadFile : string -> result string;
  Join : string -> string -> string;                          (* [filepath.Join] *)
  Unmarshal_def : string -> result PluginDefinition;          (* [json.Unmarshal(raw, &def)] *)
  Unmarshal_defs : string -> result (list PluginDefinition);  (* [json.Unmarshal(raw, &defs)] *)
  Unmarshal_object : string -> result (gmap string any);
  Now : nat -> time.Time;           (* the successive readings of [time.Now()] *)
  CombinedOutput : context.Context -> string -> list string -> result string;
  NewRequest : string -> option error;   (* [http.NewRequestWithContext(ctx, "GET", url, nil)] *)
  Do : time.Duration -> context.Context -> string -> result http.Response
}.

(** *** Loading *)

Definition isSpace (c : ascii) : bool :=
  (Ascii.eqb c " " || Ascii.eqb c (byte 10) || Ascii.eqb c (byte 9) || Ascii.eqb c (byte 13))%bool.

Definition bytesTrimSpace (b : string) : string :=
  str (rev (drop_while isSpace (rev (drop_while isSpace (chars b))))).

Fixpoint load_entries (w : World) (dir : string) (entries : list os.DirEntry)
    (all : list PluginDefinition) : result (list PluginDefinition) :=
  match entries with
  | [] => Ok all
  | entry :: entries' =>
      if os.IsDir entry then load_entries w dir entries' all
      else if negb (String.eqb (Ext (os.Name entry)) ".json") then load_entries w dir entries' all
      else
        let path := Join w dir (os.Name entry) in
        match ReadFile w path with
        | Err err => Err ("failed to read plugin file " +:+ path +:+ ": " +:+ err)
        | Ok raw =>
            let raw := bytesTrimSpace raw in
            match raw with
            | EmptyString => load_entries w dir entries' all
            | String c _ =>
                if Ascii.eqb c "[" then
                  match Unmarshal_defs w raw with
                  | Err err => Err ("failed to parse plugin file " +:+ path +:+ ": " +:+ err)
                  | Ok defs => load_entries w dir entries' (all ++ defs)
                  end
                else
                  match Unmarshal_def w raw with
                  | Err err => Err ("failed to parse plugin file " +:+ path +:+ ": " +:+ err)
                  | Ok d => load_entries w dir entries' (all ++ [d])
                  end
            end
        end
  end.

Definition LoadPlugins (w : World) (dir : string) : result (list PluginDefinition) :=
  match Stat w dir with
  | os.StatNotExist _ => Ok []
  | os.StatErr err => Err ("failed to stat plugins dir: " +:+ err)
  | os.StatOk isDir =>
      if negb isDir then Err ("plugins path " +:+ dir +:+ " is not a directory")
      else
        match ReadDir w dir with
        | Err err => Err ("failed to read plugins dir: " +:+ err)
        | Ok entries => load_entries w dir entries []
        end
  end.

Fixpoint newest_of (entries : list os.DirEntry) (newest : time.Time) : time.Time :=
  match entries with
  | [] => newest
  | entry :: entries' =>
      if (os.IsDir entry || negb (String.eqb (Ext (os.Name entry)) ".json"))%bool
      then newest_of entries' newest
      else
        match os.ModTime entry with
        | Err _ => newest_of entries' newest
        | Ok modTime =>
            if time.After modTime newest then newest_of entries' modTime
            else newest_of entries' newest
        end
  end.

Definition latestPluginsMTime (w : World) (dir : string) : time.Time :=
  match ReadDir w dir with
  | Err _ => time.zero
  | Ok entries => newest_of entries time.zero
  end.

(** *** Validation *)

Definition blacklist : gset string :=
  {[ "rm"; "sudo"; "mv"; "cp"; "shutdown"; "reboot"; "halt"; "init" ]}.

Definition blacklistedCommand (cmd : string) : bool :=
  let clean := ToLower (Base cmd) in
  bool_decide (clean ∈ blacklist).

Definition metricPattern : string := "^[a-zA-Z_:][a-zA-Z0-9_:]*$".
Definition metricRegex : regexp.Regexp := regexp.MustCompile metricPattern.

(** The [error] a validation returns: [Ok tt] is nil. *)
Definition validatePluginDefinition (d : PluginDefinition) : result unit :=
  try _ <- fail_if (String.eqb (Name d) "") "plugin name is required";
  try _ <- fail_if (String.eqb (Metric d) "")
             ("plugin " +:+ Name d +:+ ": metric is required");
  try _ <- fail_if (negb (regexp.MatchString metricRegex (Metric d)))
             ("plugin " +:+ Name d +:+ ": metric '" +:+ Metric d
              +:+ "' must match regex " +:+ metricPattern);
  try _ <- fail_if (negb (String.eqb (MetricType d) "gauge")
                    && negb (String.eqb (MetricType d) "counter"))
             ("plugin " +:+ Name d +:+ ": metric_type must be 'gauge' or 'counter'");
  try _ <- fail_if (IntervalSeconds d <=? 0)
             ("plugin " +:+ Name d +:+ ": interval_seconds must be positive");
  let sourceCount := 0 in
  try sourceCount <-
    match Command d with
    | Some src =>
        match Command_ src with
        | [] => Err ("plugin " +:+ Name d +:+ ": command source requires 'command' array")
        | cmd0 :: _ =>
            if blacklistedCommand cmd0
            then Err ("plugin " +:+ Name d +:+ ": command '" +:+ cmd0 +:+ "' is blacklisted")
            else Ok (sourceCount + 1)
        end
    | None => Ok sourceCount
    end;
  try sourceCount <-
    match HTTP d with
    | Some src =>
        if String.eqb (URL src) ""
        then Err ("plugin " +:+ Name d +:+ ": http source requires 'url'")
        else Ok (sourceCount + 1)
    | None => Ok sourceCount
    end;
  try sourceCount <-
    match File d with
    | Some src =>
        if String.eqb (Path src) ""
        then Err ("plugin " +:+ Name d +:+ ": file source requires 'path'")
        else Ok (sourceCount + 1)
    | None => Ok sourceCount
    end;
  try _ <- fail_if (sourceCount =? 0)
             ("plugin " +:+ Name d +:+ ": one source must be provided (command/http/file)");
  try _ <- fail_if (1 <? sourceCount)
             ("plugin " +:+ Name d +:+ ": only one source type is allowed");
  Ok tt.

(** *** Building a runtime *)

Definition detectSource (d : PluginDefinition) : string :=
  match Command d, HTTP d, File d with
  | Some _, _, _ => pluginSourceCommand
  | None, Some _, _ => pluginSourceHTTP
  | None, None, Some _ => pluginSourceFile
  | None, None, None => ""
  end.

Definition normalizeParser (p : PluginParser) : result parsedParser :=
  let mode := Mode p in
  let mode := if String.eqb mode "" then pluginParserNumber else mode in
  if String.eqb mode pluginParserNumber then
    Ok {| mode := pluginParserNumber; regex := None; rawRegex := ""; rawMode := mode |}
  else if String.eqb mode pluginParserRegex then
    if String.eqb (Regex p) "" then Err "parser regex mode requires 'regex'"
    else
      match regexp.Compile (Regex p) with
      | Err err => Err ("invalid parser regex: " +:+ err)
      | Ok re =>
          Ok {| mode := pluginParserRegex; regex := Some re;
                rawRegex := Regex p; rawMode := mode |}
      end
  else Err ("unsupported parser mode: " +:+ mode).

Definition set_metricKey (rt : pluginRuntime) (k : string) : pluginRuntime :=
  {| def := def rt; nextRun := nextRun rt; interval := interval rt; timeout := timeout rt;
     parser := parser rt; source := source rt; metricKey := k |}.

(** [now] is the reading of [time.Now()] the call takes. *)
Definition buildRuntime (d : PluginDefinition) (prefix : string) (now : time.Time)
    : result pluginRuntime :=
  try _ <- validatePluginDefinition d;
  match normalizeParser (Parser d) with
  | Err err => Err ("plugin " +:+ Name d +:+ ": " +:+ err)
  | Ok pr =>
      let timeout_ := defaultPluginTimeout in
      let timeout_ :=
        if 0 <? TimeoutSeconds d then time.seconds (TimeoutSeconds d) else timeout_ in
      let rt := {| def := d;
                   nextRun := now;
                   interval := time.seconds (IntervalSeconds d);
                   timeout := timeout_;
                   parser := pr;
                   source := detectSource d;
                   metricKey := "" |} in
      Ok (set_metricKey rt (prefix +:+ Metric d))
  end.

(** The construction stops at the first definition that does not build;
    [n] counts the readings of the clock. *)
Fixpoint build_all (w : World) (prefix : string) (defs : list PluginDefinition)
    (runtime : list pluginRuntime) (n : nat) : result (list pluginRuntime) :=
  match defs with
  | [] => Ok runtime
  | d :: defs' =>
      try prt <- buildRuntime d prefix (Now w n);
      build_all w prefix defs' (runtime ++ [prt]) (S n)
  end.

Definition NewPluginCollector (w : World) (prefix pluginsDir : string)
    (defs : list PluginDefinition) : result PluginCollector :=
  try runtime <- build_all w prefix defs [] 0;
  Ok {| prefix := prefix;
        pluginsDir := pluginsDir;
        plugins := runtime;
        lastMod := latestPluginsMTime w pluginsDir |}.

(** *** Parsing a value *)

Definition parseValue (raw : string) (parser : parsedParser) : outcome (result float64) :=
  if String.eqb (mode parser) pluginParserNumber then
    let text := TrimSpace raw in
    Returns (strconv.ParseFloat text)
  else if String.eqb (mode parser) pluginParserRegex then
    match regex parser with
    | None => Panics
    | Some re =>
        let matches := regexp.FindStringSubmatch re raw in
        match matches with
        | _ :: m1 :: _ => Returns (strconv.ParseFloat m1)
        | _ => Returns (Err ("regex '" +:+ rawRegex parser
                             +:+ "' did not match any capture group"))
        end
    end
  else Returns (Err ("unsupported parser mode " +:+ rawMode parser)).

(** *** Executing a plugin *)

Definition runCommand (w : World) (ctx : context.Context) (src : option CommandSource)
    (parser : parsedParser) : outcome (result float64) :=
  match src with
  | None => Returns (Err "command source missing")
  | Some src =>
      match Command_ src with
      | [] => Returns (Err "command source missing")
      | name :: args =>
          match CombinedOutput w ctx name args with
          | Err err => Returns (Err ("command failed: " +:+ err))
          | Ok output => parseValue output parser
          end
      end
  end.

Definition runHTTP (w : World) (ctx : context.Context) (src : option HTTPSource)
    (parser : parsedParser) : outcome (result float64) :=
  match src with
  | None => Returns (Err "http source missing")
  | Some src =>
      if String.eqb (URL src) "" then Returns (Err "http source missing")
      else
        match NewRequest w (URL src) with
        | Some err => Returns (Err ("failed to create http request: " +:+ err))
        | None =>
            let timeout_ := defaultPluginTimeout in
            let timeout_ :=
              match context.Remaining ctx with Some dl => dl | None => timeout_ end in
            match Do w timeout_ ctx (URL src) with
            | Err err => Returns (Err ("http request failed: " +:+ err))
            | Ok resp =>
                if negb (http.StatusCode resp =? http.StatusOK) then
                  Returns (Err ("unexpected status code " +:+ itoa (http.StatusCode resp)))
                else
                  match http.Body resp with
                  | Err err => Returns (Err ("failed to read http response: " +:+ err))
                  | Ok body => parseValue body parser
                  end
            end
        end
  end.

Definition runFile (w : World) (ctx : context.Context) (src : option FileSource)
    (parser : parsedParser) : outcome (result float64) :=
  match src with
  | None => Returns (Err "file source missing")
  | Some src =>
      if String.eqb (Path src) "" then Returns (Err "file source missing")
      else
        match context.Err ctx with
        | Some err => Returns (Err err)
        | None =>
            match ReadFile w (Path src) with
            | Err err => Returns (Err ("failed to read file: " +:+ err))
            | Ok content => parseValue content parser
            end
        end
  end.

Definition execute (w : World) (ctx : context.Context) (pl : pluginRuntime)
    : outcome (result float64) :=
  let ctx := context.WithTimeout ctx (timeout pl) in
  if String.eqb (source pl) pluginSourceCommand then
    runCommand w ctx (Command (def pl)) (parser pl)
  else if String.eqb (source pl) pluginSourceHTTP then
    runHTTP w ctx (HTTP (def pl)) (parser pl)
  else if String.eqb (source pl) pluginSourceFile then
    runFile w ctx (File (def pl)) (parser pl)
  else Returns (Err ("unknown plugin source: " +:+ source pl)).

(** *** Hot reload *)

(** The runtimes of the definitions that build; the others are skipped. *)
Fixpoint reload_all (w : World) (prefix : string) (defs : list PluginDefinition)
    (runtime : list pluginRuntime) (n : nat) : list pluginRuntime * nat :=
  match defs with
  | [] => (runtime, n)
  | d :: defs' =>
      match buildRuntime d prefix (Now w n) with
      | Err _ => reload_all w prefix defs' runtime n
      | Ok prt => reload_all w prefix defs' (runtime ++ [prt]) (S n)
      end
  end.

Definition set_plugins (p : PluginCollector) (rts : list pluginRuntime) : PluginCollector :=
  {| prefix := prefix p; plugins := rts; pluginsDir := pluginsDir p; lastMod := lastMod p |}.

(** The collector after the reload check, and the number of clock readings taken. *)
Definition maybeReload (w : World) (p : PluginCollector) : PluginCollector * nat :=
  if String.eqb (pluginsDir p) "" then (p, 0%nat)
  else
    let modTime := latestPluginsMTime w (pluginsDir p) in
    if negb (time.After modTime (lastMod p)) then (p, 0%nat)
    else
      match LoadPlugins w (pluginsDir p) with
      | Err _ => (p, 0%nat)
      | Ok defs =>
          let '(runtime, n) := reload_all w (prefix p) defs [] 0 in
          ({| prefix := prefix p; plugins := runtime;
              pluginsDir := pluginsDir p; lastMod := modTime |}, n)
      end.

(** *** Collecting *)

Definition set_nextRun (pl : pluginRuntime) (t : time.Time) : pluginRuntime :=
  {| def := def pl; nextRun := t; interval := interval pl; timeout := timeout pl;
     parser := parser pl; source := source pl; metricKey := metricKey pl |}.

(** The loop over [p.plugins]: the metrics appended and the runtimes as
    the loop leaves them. *)
Fixpoint collect_loop (w : World) (ctx : context.Context) (now : time.Time)
    (pls : list pluginRuntime) (metrics : list Metric.t)
    : outcome (list Metric.t * list pluginRuntime) :=
  match pls with
  | [] => Returns (metrics, [])
  | pl :: pls' =>
      if time.Before now (nextRun pl) then
        do (ms, rest) <- collect_loop w ctx now pls' metrics;
        Returns (ms, pl :: rest)
      else
        do r <- execute w ctx pl;
        match r with
        | Err _ =>
            let pl := set_nextRun pl (time.Add now (interval pl)) in
            do (ms, rest) <- collect_loop w ctx now pls' metrics;
            Returns (ms, pl :: rest)
        | Ok value =>
            let labels := assign_all (Labels (def pl)) ∅ in
            let labels := <["plugin" := Name (def pl)]> labels in
            let metrics := metrics ++ [Metric.mk (metricKey pl) (Some labels) value
                                                 (MetricType (def pl))] in
            let pl := set_nextRun pl (time.Add now (interval pl)) in
            do (ms, rest) <- collect_loop w ctx now pls' metrics;
            Returns (ms, pl :: rest)
        end
  end.

End WithEngine.

Module Plugin.
Section WithEngine.
Context {E : regexp.Engine}.

Definition Name (p : PluginCollector) : string := "plugin".

(** The [Collect] method of [PluginCollector]: the metrics, the error, and the
    collector afterwards. *)
Definition Collect (w : World) (ctx : context.Context) (p : PluginCollector)
    : outcome (list Metric.t * option error * PluginCollector) :=
  let '(p, n) := maybeReload w p in
  let now := Now w n in
  do (metrics, pls) <- collect_loop w ctx now (plugins p) [];
  Returns (metrics, None, set_plugins p pls).

End WithEngine.
End Plugin.

(** *** The endpoint-scrape collector *)
Section WithEngine.
Context {E : regexp.Engine}.

Definition metricLinePattern : string :=
  "^([a-zA-Z_:][a-zA-Z0-9_:]*)\s*(\{[^}]*\})?\s+([+-]?[0-9]*\.?[0-9]+(?:[eE][+-]?[0-9]+)?)\s*(\d+)?$".

Definition labelPattern : string :=
  "([a-zA-Z_][a-zA-Z0-9_]*)=" +:+ dq +:+ "([^" +:+ dq +:+ "]*)" +:+ dq.

Definition metricLineRegex : regexp.Regexp := regexp.MustCompile metricLinePattern.
Definition labelRegex : regexp.Regexp := regexp.MustCompile labelPattern.

(** [matches[i]] of a submatch slice.  The indices the code uses are in
    range for an engine that keeps the contract of the package: a match
    of [metricLineRegex] has five submatches and one of [labelRegex]
    three (see [patterns_compile]). *)
Definition at_ (l : list string) (i : nat) : string := nth i l EmptyString.

(** The labels of one series: [endpoint], then the pairs of the label list. *)
Definition line_labels (endpointName labelsStr : string) : gmap string string :=
  let labels : gmap string string := {[ "endpoint" := endpointName ]} in
  if negb (String.eqb labelsStr "") then
    let labelsStr := Trim labelsStr "{}" in
    let labelMatches := regexp.FindAllStringSubmatch labelRegex labelsStr in
    fold_left (fun labels lm =>
                 if (length lm =? 3)%nat then <[at_ lm 1 := at_ lm 2]> labels else labels)
              labelMatches labels
  else labels.

Definition line_type (metricTypes : gmap string string) (metricName : string) : string :=
  let metricType := "gauge" in
  match metricTypes !! metricName with
  | Some t => if String.eqb t "counter" then "counter" else metricType
  | None =>
      if (HasSuffix metricName "_total" || HasSuffix metricName "_count")%bool
      then "counter" else metricType
  end.

(** The body of the loop over the scanned lines. *)
Fixpoint parse_lines (endpointName : string) (lines : list string)
    (metricTypes : gmap string string) (metrics : list Metric.t) : list Metric.t :=
  match lines with
  | [] => metrics
  | text :: lines' =>
      let line := TrimSpace text in
      if String.eqb line "" then parse_lines endpointName lines' metricTypes metrics
      else if HasPrefix line "# TYPE " then
        let parts := Fields line in
        let metricTypes :=
          if (4 <=? length parts)%nat then <[at_ parts 2 := at_ parts 3]> metricTypes
          else metricTypes in
        parse_lines endpointName lines' metricTypes metrics
      else if HasPrefix line "#" then parse_lines endpointName lines' metricTypes metrics
      else
        let matches := regexp.FindStringSubmatch metricLineRegex line in
        match matches with
        | [] => parse_lines endpointName lines' metricTypes metrics
        | _ =>
            let metricName := at_ matches 1 in
            let labelsStr := at_ matches 2 in
            let valueStr := at_ matches 3 in
            match strconv.ParseFloat valueStr with
            | Err _ => parse_lines endpointName lines' metricTypes metrics
            | Ok value =>
                let labels := line_labels endpointName labelsStr in
                let metricType := line_type metricTypes metricName in
                parse_lines endpointName lines' metricTypes
                  (metrics ++ [Metric.mk metricName (Some labels) value metricType])
            end
        end
  end.

Definition parsePrometheusMetrics (endpointName body : string) : list Metric.t :=
  parse_lines endpointName (bufio.ScanLines body) ∅ [].

(** [float64(v)] for the numeric dynamic types. *)
Definition number_of (value : any) : option float64 :=
  match value with
  | AFloat64 v => Some v
  | AFloat32 v => Some v
  | AInt v | AInt64 v | AInt32 v => Some (float64_of_Z v)
  | AOther => None
  end.

(** Go leaves the order in which a map is ranged over open; here it is
    the order of [map_to_list]. *)
Definition parseJSONMetrics (endpointName : string) (rawMetrics : gmap string any)
    : list Metric.t :=
  fold_left (fun metrics '(key, value) =>
               match number_of value with
               | None => metrics
               | Some floatValue =>
                   metrics ++ [Metric.mk ("app_" +:+ key)
                                 (Some {[ "endpoint" := endpointName ]}) floatValue "gauge"]
               end)
            (map_to_list rawMetrics) [].

Definition scrapeEndpoint (w : World) (c : HTTPCollector) (ctx : context.Context)
    (endpoint : EndpointConfig) : result (list Metric.t) :=
  match NewRequest w (endpoint_URL endpoint) with
  | Some err => Err ("failed to create request: " +:+ err)
  | None =>
      match Do w (client_Timeout c) ctx (endpoint_URL endpoint) with
      | Err err => Err ("failed to execute request: " +:+ err)
      | Ok resp =>
          if negb (http.StatusCode resp =? http.StatusOK) then
            Err ("unexpected status code: " +:+ itoa (http.StatusCode resp))
          else
            match http.Body resp with
            | Err err => Err ("failed to read response body: " +:+ err)
            | Ok body =>
                let contentType := http.ContentType resp in
                if Contains contentType "application/json" then
                  match Unmarshal_object w body with
                  | Err err => Err ("failed to parse JSON response: " +:+ err)
                  | Ok rawMetrics => Ok (parseJSONMetrics (endpoint_Name endpoint) rawMetrics)
                  end
                else
                  let metrics := parsePrometheusMetrics (endpoint_Name endpoint) body in
                  if (0 <? length metrics)%nat then Ok metrics
                  else
                    match Unmarshal_object w body with
                    | Err err =>
                        Err ("failed to parse response (tried prometheus and JSON formats): "
                             +:+ err)
                    | Ok rawMetrics =>
                        Ok (parseJSONMetrics (endpoint_Name endpoint) rawMetrics)
                    end
            end
      end
  end.

End WithEngine.

Module HTTP.
Section WithEngine.
Context {E : regexp.Engine}.

Definition Name (c : HTTPCollector) : string := "http".

Fixpoint collect_endpoints (w : World) (c : HTTPCollector) (ctx : context.Context)
    (eps : list EndpointConfig) (metrics : list Metric.t) : list Metric.t :=
  match eps with
  | [] => metrics
  | endpoint :: eps' =>
      match scrapeEndpoint w c ctx endpoint with
      | Err _ => collect_endpoints w c ctx eps' metrics
      | Ok endpointMetrics => collect_endpoints w c ctx eps' (metrics ++ endpointMetrics)
      end
  end.

(** The [Collect] method of [HTTPCollector]: the metrics and the error. *)
Definition Collect (w : World) (c : HTTPCollector) (ctx : context.Context)
    : list Metric.t * option error :=
  let metrics := collect_endpoints w c ctx (endpoints c) [] in
  (metrics, None).

End WithEngine.
End HTTP.

(** *** Predicates and abbreviations of the statements *)
Section WithEngine.
Context {E : regexp.Engine}.

(** A parser in regex mode holds a compiled pattern: what [normalizeParser]
    establishes, and what keeps [parseValue] from a nil dereference. *)
Definition parser_ok (pr : parsedParser) : Prop :=
  mode pr = pluginParserRegex -> regex pr <> None.

Definition runtimes_ok (pls : list pluginRuntime) : Prop :=
  Forall (fun pl => parser_ok (parser pl)) pls.

(** A definition builds when it validates and its parser is accepted. *)
Definition buildable (d : PluginDefinition) : bool :=
  (is_ok (validatePluginDefinition d) && is_ok (normalizeParser (Parser d)))%bool.

(** What one pass of the loop of [Collect] does to a runtime: nothing when
    it is not due, and otherwise it re-arms it at [now] plus its interval. *)
Definition rearmed (now : time.Time) (a b : pluginRuntime) : Prop :=
  (time.Before now (nextRun a) = true /\ b = a) \/
  (time.Before now (nextRun a) = false /\ b = set_nextRun a (time.Add now (interval a))).

(** A definition with another [timeout_seconds]. *)
Definition with_TimeoutSeconds (d : PluginDefinition) (t : Z) : PluginDefinition :=
  {| Name := Name d; Metric := Metric d; MetricType := MetricType d;
     IntervalSeconds := IntervalSeconds d; Labels := Labels d; TimeoutSeconds := t;
     Parser := Parser d; Command := Command d; HTTP := HTTP d; File := File d |}.

(** Abbreviations for the statements about [parseValue]: a parser in
    regex mode, and the error of a match without a first group. *)
Definition regex_parser (re : regexp.Regexp) (rawRegex rawMode : string) : parsedParser :=
  {| mode := pluginParserRegex; regex := Some re; rawRegex := rawRegex; rawMode := rawMode |}.

Definition no_capture (rawRegex : string) : error :=
  "regex '" +:+ rawRegex +:+ "' did not match any capture group".

End WithEngine.

End collector.

(** * Package [orchestrator] *)
Module orchestrator.
Import Go.

(** The registry, the shipper, the interval and the stop channel of the
    struct take no part in the label enrichment and are left out. *)
Record Orchestrator := {
  hostname : string;
  globalLabels : gmap string string
}.

(** [osHostname] is what [os.Hostname()] answers. *)
Definition NewOrchestrator (osHostname : result string) : Orchestrator :=
  let hostname := match osHostname with Ok h => h | Err _ => "unknown" end in
  {| hostname := hostname; globalLabels := ∅ |}.

Definition NewOrchestratorWithLabels (osHostname : result string)
    (globalLabels : gmap string string) : Orchestrator :=
  let hostname := match osHostname with Ok h => h | Err _ => "unknown" end in
  let hostname :=
    match globalLabels !! "hostname" with
    | Some customHostname =>
        if negb (String.eqb customHostname "") then customHostname else hostname
    | None => hostname
    end in
  let labels := assign_all globalLabels ∅ in
  {| hostname := hostname; globalLabels := labels |}.

(** One step of the loop over [o.globalLabels]: the [hostname] key is left alone. *)
Definition merge_global (k v : string) (labels : gmap string string) : gmap string string :=
  if negb (String.eqb k "hostname") then <[k := v]> labels else labels.

(** The loop body of [addGlobalLabels] for one metric. *)
Definition add_labels (o : Orchestrator) (m : collector.Metric.t) : collector.Metric.t :=
  let labels := match collector.Metric.Labels m with
                | None => ∅
                | Some l => l
                end in
  let labels := <["hostname" := hostname o]> labels in
  let labels := map_fold merge_global labels (globalLabels o) in
  collector.Metric.mk (collector.Metric.Name m) (Some labels)
                      (collector.Metric.Value m) (collector.Metric.Type' m).

Definition addGlobalLabels (o : Orchestrator) (metrics : list collector.Metric.t)
    : list collector.Metric.t :=
  map (add_labels o) metrics.

(** One cycle: [collected] is what the registry's [CollectAll] answers;
    the result is the batch handed to the shipper's [Ship], if any. *)
Definition collectAndShip (o : Orchestrator) (collected : result (list collector.Metric.t))
    : option (list collector.Metric.t) :=
  match collected with
  | Err _ => None
  | Ok metrics =>
      let metrics := addGlobalLabels o metrics in
      Some metrics
  end.

End orchestrator.

(** * The specification's words, for comparison with the code *)
Module spec.
Import Go collector.

(** The metric-name grammar [^[a-zA-Z_:][a-zA-Z0-9_:]*$], read directly:
    a first character that is a letter, an underscore or a colon, then
    any number of those or digits, and nothing else. *)
Definition is_letter (c : ascii) : bool :=
  (in_range "a" "z" c || in_range "A" "Z" c)%bool.

Definition name_start (c : ascii) : bool :=
  (is_letter c || Ascii.eqb c "_" || Ascii.eqb c ":")%bool.

Definition name_char (c : ascii) : bool :=
  (name_start c || is_digit c)%bool.

Definition metric_name (s : string) : bool :=
  match chars s with
  | [] => false
  | c :: r => (name_start c && forallb name_char r)%bool
  end.

(** How many of the three source variants a definition sets. *)
Definition sources_set (d : PluginDefinition) : nat :=
  (match Command d with Some _ => 1 | None => 0 end
   + match HTTP d with Some _ => 1 | None => 0 end
   + match File d with Some _ => 1 | None => 0 end)%nat.

(** The conditions the specification lists for a definition to be valid. *)
Definition listed_conditions (d : PluginDefinition) : Prop :=
  Name d <> "" /\
  Metric d <> "" /\
  metric_name (Metric d) = true /\
  (MetricType d = "gauge" \/ MetricType d = "counter") /\
  0 < IntervalSeconds d /\
  sources_set d = 1%nat.

(** What the code asks of the source variant that is set, beyond its presence. *)
Definition source_filled (d : PluginDefinition) : Prop :=
  (forall src, Command d = Some src ->
     exists cmd0 args, Command_ src = cmd0 :: args /\ blacklistedCommand cmd0 = false) /\
  (forall src, HTTP d = Some src -> URL src <> "") /\
  (forall src, File d = Some src -> Path src <> "").

(** The deny-list of the specification. *)
Definition deny_list : list string :=
  ["rm"; "sudo"; "mv"; "cp"; "shutdown"; "reboot"; "halt"; "init"].

End spec.

(** * Inputs used in the examples *)
Module examples.
Import Go collector.

Definition number_parser : PluginParser := {| Mode := ""; Regex := "" |}.

(** An [http] plugin whose [url] is empty. *)
Definition http_without_url : PluginDefinition :=
  {| Name := "p"; Metric := "m"; MetricType := "gauge"; IntervalSeconds := 1;
     Labels := ∅; TimeoutSeconds := 0; Parser := number_parser;
     Command := None; HTTP := Some {| URL := "" |}; File := None |}.

(** A [command] plugin that runs [/usr/local/bin/ShutDown -h now]. *)
Definition shutdown_plugin : PluginDefinition :=
  {| Name := "p"; Metric := "m"; MetricType := "gauge"; IntervalSeconds := 1;
     Labels := ∅; TimeoutSeconds := 0; Parser := number_parser;
     Command := Some {| Command_ := ["/usr/local/bin/ShutDown"; "-h"; "now"] |};
     HTTP := None; File := None |}.

(** A [file] plugin read every 15 seconds. *)
Definition rx_bytes : PluginDefinition :=
  {| Name := "bandwidth_rx"; Metric := "bandwidth_rx_bytes_total"; MetricType := "counter";
     IntervalSeconds := 15; Labels := {[ "interface" := "eth0" ]}; TimeoutSeconds := 0;
     Parser := number_parser;
     Command := None; HTTP := None;
     File := Some {| Path := "/sys/class/net/eth0/statistics/rx_bytes" |} |}.

(** The parser of the specification's example, [(\d+)], and one without a group. *)
Definition digits_group : PluginParser := {| Mode := "regex"; Regex := "(\d+)" |}.
Definition digits_only : PluginParser := {| Mode := "regex"; Regex := "\d+" |}.

(** A [file] plugin that reads the first field of [/proc/loadavg] with a
    counted repetition, a pattern outside the modelled syntax, and sets
    no timeout. *)
Definition load_average : PluginDefinition :=
  {| Name := "load"; Metric := "load_average"; MetricType := "gauge";
     IntervalSeconds := 30; Labels := ∅; TimeoutSeconds := 0;
     Parser := {| Mode := "regex"; Regex := "^(\d{1,3}\.\d+)" |};
     Command := None; HTTP := None; File := Some {| Path := "/proc/loadavg" |} |}.

(** The exposition-format body of the specification's example. *)
Definition nl : string := String (byte 10) EmptyString.

Definition exposition_body : string :=
  "# TYPE http_requests counter" +:+ nl +:+
  "http_requests{method=" +:+ dq +:+ "GET" +:+ dq +:+ "} 1027 1395066363000".

(** The cycle of the specification's example: two metrics [a] and [b],
    the global label [env=prod], the host name [h1]. *)
Definition metric_a : Metric.t := Metric.mk "a" None (float64_of_Z 1) "gauge".
Definition metric_b : Metric.t := Metric.mk "b" None (float64_of_Z 2) "gauge".

Definition env_prod : gmap string string := {[ "env" := "prod" ]}.

(** A global-label map whose [hostname] entry is empty. *)
Definition empty_hostname : gmap string string := {[ "hostname" := "" ]}.

(** A [file] plugin whose interval, 9223372037 seconds, does not fit in
    a [time.Duration]. *)
Definition huge_interval : PluginDefinition :=
  {| Name := "rare"; Metric := "rare_reading"; MetricType := "gauge";
     IntervalSeconds := 9223372037; Labels := ∅; TimeoutSeconds := 0;
     Parser := number_parser;
     Command := None; HTTP := None; File := Some {| Path := "/tmp/reading" |} |}.

(** A world without a plugins directory, in which every file reads [1],
    commands and requests fail, and the clock starts on 2026-01-01 and
    advances by a millisecond per reading. *)
Definition start_2026 : time.Time := 1767225600 * time.Second.

Definition quiet_world : World :=
  {| Stat := fun _ => os.StatNotExist "no such file or directory";
     ReadDir := fun _ => Err "no such file or directory";
     ReadFile := fun _ => Ok "1";
     Join := fun dir name => dir +:+ "/" +:+ name;
     Unmarshal_def := fun _ => Err "unexpected end of JSON input";
     Unmarshal_defs := fun _ => Err "unexpected end of JSON input";
     Unmarshal_object := fun _ => Err "unexpected end of JSON input";
     Now := fun n => start_2026 + Z.of_nat n * 1000000;
     CombinedOutput := fun _ _ _ => Err "exit status 1";
     NewRequest := fun _ => None;
     Do := fun _ _ _ => Err "connection refused" |}.

(** A collector that runs [rx_bytes], built at the start of 2026 from the
    directory [plugins]. *)
Definition rx_runtime : pluginRuntime :=
  {| def := rx_bytes;
     nextRun := start_2026;
     interval := 15 * time.Second;
     timeout := 10 * time.Second;
     parser := {| mode := "number"; regex := None; rawRegex := ""; rawMode := "number" |};
     source := "file";
     metricKey := "metricsd_plugin_bandwidth_rx_bytes_total" |}.

Definition running : PluginCollector :=
  {| prefix := "metricsd_plugin_"; plugins := [rx_runtime];
     pluginsDir := "plugins"; lastMod := start_2026 |}.

(** A world whose plugins directory holds one file newer than the
    collector has seen, which does not parse. *)
Definition broken_reload_world : World :=
  {| Stat := fun _ => os.StatOk true;
     ReadDir := fun _ => Ok [ {| os.Name := "p.json"; os.IsDir := false;
                                 os.ModTime := Ok (start_2026 + 5) |} ];
     ReadFile := fun _ => Ok "{";
     Join := fun dir name => dir +:+ "/" +:+ name;
     Unmarshal_def := fun _ => Err "unexpected end of JSON input";
     Unmarshal_defs := fun _ => Err "unexpected end of JSON input";
     Unmarshal_object := fun _ => Err "unexpected end of JSON input";
     Now := fun n => start_2026 + 10 + Z.of_nat n * 1000000;
     CombinedOutput := fun _ _ _ => Err "exit status 1";
     NewRequest := fun _ => None;
     Do := fun _ _ _ => Err "connection refused" |}.

(** A world whose plugins directory holds one newer file with two
    definitions, the first of which does not validate. *)
Definition fresh_reload_world : World :=
  {| Stat := fun _ => os.StatOk true;
     ReadDir := fun _ => Ok [ {| os.Name := "README.md"; os.IsDir := false;
                                 os.ModTime := Ok (start_2026 + 9) |};
                              {| os.Name := "p.json"; os.IsDir := false;
                                 os.ModTime := Ok (start_2026 + 5) |} ];
     ReadFile := fun _ => Ok "[ two definitions ]";
     Join := fun dir name => dir +:+ "/" +:+ name;
     Unmarshal_def := fun _ => Err "unexpected end of JSON input";
     Unmarshal_defs := fun _ => Ok [http_without_url; huge_interval];
     Unmarshal_object := fun _ => Err "unexpected end of JSON input";
     Now := fun n => start_2026 + 10 + Z.of_nat n * 1000000;
     CombinedOutput := fun _ _ _ => Err "exit status 1";
     NewRequest := fun _ => None;
     Do := fun _ _ _ => Err "connection refused" |}.

End examples.

(** * Package [config] *)

(** [strconv.Atoi] and [strconv.ParseBool], which the environment
    overrides call.  [Atoi] reads an optional sign and decimal digits (no
    underscores in base 10) and answers an error outside the 64-bit range. *)
Module strconv_int.
Import Go.

Fixpoint digits_value (acc : Z) (s : list ascii) : option Z :=
  match s with
  | [] => Some acc
  | c :: r => if is_digit c then digits_value (acc * 10 + strconv.digit_val c) r else None
  end.

Definition Atoi (s : string) : result Z :=
  let syntax := Err ("strconv.Atoi: parsing " +:+ quote s +:+ ": invalid syntax") in
  let '(neg, body) := strconv.drop_sign (chars s) in
  match body with
  | [] => syntax
  | _ =>
      match digits_value 0 body with
      | None => syntax
      | Some n =>
          let v := if neg then - n else n in
          if (- 2 ^ 63 <=? v) && (v <=? 2 ^ 63 - 1) then Ok v
          else Err ("strconv.Atoi: parsing " +:+ quote s +:+ ": value out of range")
      end
  end.

Definition ParseBool (s : string) : result bool :=
  if existsb (String.eqb s) ["1"; "t"; "T"; "TRUE"; "true"; "True"] then Ok true
  else if existsb (String.eqb s) ["0"; "f"; "F"; "FALSE"; "false"; "False"] then Ok false
  else Err ("strconv.ParseBool: parsing " +:+ quote s +:+ ": invalid syntax").

End strconv_int.

Module config.
Import Go.

Record ServerConfig := {
  Host : string;
  Port : Z
}.

Record CollectorConfig := {
  IntervalSeconds : Z;
  EnableCPU : bool;
  EnableMemory : bool;
  EnableDisk : bool;
  EnableNetwork : bool;
  EnableGPU : bool
}.

Record TLSConfig := {
  Enabled : bool;
  CertFile : string;
  KeyFile : string;
  CAFile : string;
  InsecureSkipVerify : bool
}.

(** The field [Type] of [ShipperConfig] is [Type'] here. *)
Record ShipperConfig := {
  Type' : string;
  Endpoint : string;
  TLS : TLSConfig;
  Timeout : time.Duration
}.

Record EndpointConfig := {
  Name : string;
  URL : string
}.

Record Config := {
  Server : ServerConfig;
  Collector : CollectorConfig;
  Shipper : ShipperConfig;
  Endpoints : list EndpointConfig;
  GlobalLabels : gmap string string
}.

(** The assignments [cfg.Server.Host = val] and the like. *)
Definition set_Host (cfg : Config) (v : string) : Config :=
  {| Server := {| Host := v; Port := Port (Server cfg) |};
     Collector := Collector cfg; Shipper := Shipper cfg;
     Endpoints := Endpoints cfg; GlobalLabels := GlobalLabels cfg |}.

Definition set_Port (cfg : Config) (v : Z) : Config :=
  {| Server := {| Host := Host (Server cfg); Port := v |};
     Collector := Collector cfg; Shipper := Shipper cfg;
     Endpoints := Endpoints cfg; GlobalLabels := GlobalLabels cfg |}.

Definition set_IntervalSeconds (cfg : Config) (v : Z) : Config :=
  {| Server := Server cfg;
     Collector := {| IntervalSeconds := v;
                     EnableCPU := EnableCPU (Collector cfg);
                     EnableMemory := EnableMemory (Collector cfg);
                     EnableDisk := EnableDisk (Collector cfg);
                     EnableNetwork := EnableNetwork (Collector cfg);
                     EnableGPU := EnableGPU (Collector cfg) |};
     Shipper := Shipper cfg;
     Endpoints := Endpoints cfg; GlobalLabels := GlobalLabels cfg |}.

Definition set_Shipper (cfg : Config) (s : ShipperConfig) : Config :=
  {| Server := Server cfg; Collector := Collector cfg; Shipper := s;
     Endpoints := Endpoints cfg; GlobalLabels := GlobalLabels cfg |}.

Definition set_Type (cfg : Config) (v : string) : Config :=
  set_Shipper cfg {| Type' := v; Endpoint := Endpoint (Shipper cfg);
                     TLS := TLS (Shipper cfg); Timeout := Timeout (Shipper cfg) |}.

Definition set_Endpoint (cfg : Config) (v : string) : Config :=
  set_Shipper cfg {| Type' := Type' (Shipper cfg); Endpoint := v;
                     TLS := TLS (Shipper cfg); Timeout := Timeout (Shipper cfg) |}.

Definition set_TLS (cfg : Config) (t : TLSConfig) : Config :=
  set_Shipper cfg {| Type' := Type' (Shipper cfg); Endpoint := Endpoint (Shipper cfg);
                     TLS := t; Timeout := Timeout (Shipper cfg) |}.

Definition set_Enabled (cfg : Config) (v : bool) : Config :=
  let t := TLS (Shipper cfg) in
  set_TLS cfg {| Enabled := v; CertFile := CertFile t; KeyFile := KeyFile t;
                 CAFile := CAFile t; InsecureSkipVerify := InsecureSkipVerify t |}.

Definition set_CertFile (cfg : Config) (v : string) : Config :=
  let t := TLS (Shipper cfg) in
  set_TLS cfg {| Enabled := Enabled t; CertFile := v; KeyFile := KeyFile t;
                 CAFile := CAFile t; InsecureSkipVerify := InsecureSkipVerify t |}.

Definition set_KeyFile (cfg : Config) (v : string) : Config :=
  let t := TLS (Shipper cfg) in
  set_TLS cfg {| Enabled := Enabled t; CertFile := CertFile t; KeyFile := v;
                 CAFile := CAFile t; InsecureSkipVerify := InsecureSkipVerify t |}.

Definition set_CAFile (cfg : Config) (v : string) : Config :=
  let t := TLS (Shipper cfg) in
  set_TLS cfg {| Enabled := Enabled t; CertFile := CertFile t; KeyFile := KeyFile t;
                 CAFile := v; InsecureSkipVerify := InsecureSkipVerify t |}.

(** [if val := os.Getenv(key); val != "" { ... }] *)
Definition if_set (getenv : string -> string) (key : string) (cfg : Config)
    (f : string -> Config) : Config :=
  let val := getenv key in
  if negb (String.eqb val "") then f val else cfg.

(** [getenv] is [os.Getenv]: the empty string for a variable that is not set. *)
Definition applyEnvOverrides (getenv : string -> string) (cfg : Config) : Config :=
  let cfg := if_set getenv "MC_SERVER_HOST" cfg (fun val => set_Host cfg val) in
  let cfg := if_set getenv "MC_SERVER_PORT" cfg (fun val =>
               match strconv_int.Atoi val with
               | Ok port => set_Port cfg port
               | Err _ => cfg
               end) in
  let cfg := if_set getenv "MC_COLLECTOR_INTERVAL" cfg (fun val =>
               match strconv_int.Atoi val with
               | Ok interval => set_IntervalSeconds cfg interval
               | Err _ => cfg
               end) in
  let cfg := if_set getenv "MC_SHIPPER_TYPE" cfg (fun val => set_Type cfg val) in
  let cfg := if_set getenv "MC_SHIPPER_ENDPOINT" cfg (fun val => set_Endpoint cfg val) in
  let cfg := if_set getenv "MC_TLS_ENABLED" cfg (fun val =>
               match strconv_int.ParseBool val with
               | Ok enabled => set_Enabled cfg enabled
               | Err _ => cfg
               end) in
  let cfg := if_set getenv "MC_TLS_CERT_FILE" cfg (fun val => set_CertFile cfg val) in
  let cfg := if_set getenv "MC_TLS_KEY_FILE" cfg (fun val => set_KeyFile cfg val) in
  let cfg := if_set getenv "MC_TLS_CA_FILE" cfg (fun val => set_CAFile cfg val) in
  cfg.

(** The [error] of [Validate]: [Ok tt] is nil. *)
Definition Validate (c : Config) : result unit :=
  try _ <- fail_if ((Port (Server c) <=? 0) || (65535 <? Port (Server c)))
             ("invalid server port: " +:+ itoa (Port (Server c)));
  try _ <- fail_if (IntervalSeconds (Collector c) <=? 0)
             "collector interval must be positive";
  try _ <- fail_if (negb (String.eqb (Type' (Shipper c)) "prometheus_remote_write")
                    && negb (String.eqb (Type' (Shipper c)) "http_json"))
             ("invalid shipper type: " +:+ Type' (Shipper c)
              +:+ " (must be 'prometheus_remote_write' or 'http_json')");
  try _ <- fail_if (String.eqb (Endpoint (Shipper c)) "") "shipper endpoint is required";
  try _ <-
    (if Enabled (TLS (Shipper c)) then
       fail_if (String.eqb (CertFile (TLS (Shipper c))) ""
                || String.eqb (KeyFile (TLS (Shipper c))) "")
         "TLS cert and key files are required when TLS is enabled"
     else Ok tt);
  Ok tt.

Definition GetCollectionInterval (c : Config) : time.Duration :=
  time.seconds (IntervalSeconds (Collector c)).

(** What [Load] reads: the file system, the JSON decoder and the environment. *)
Record Env := {
  ReadFile : string -> result string;
  Unmarshal : string -> result Config;    (* [json.Unmarshal(data, &cfg)] *)
  Getenv : string -> string
}.

Definition Load (env : Env) (configPath : string) : result Config :=
  match ReadFile env configPath with
  | Err err => Err ("failed to read config file: " +:+ err)
  | Ok data =>
      match Unmarshal env data with
      | Err err => Err ("failed to parse config file: " +:+ err)
      | Ok cfg =>
          let cfg := applyEnvOverrides (Getenv env) cfg in
          match Validate cfg with
          | Err err => Err ("invalid configuration: " +:+ err)
          | Ok _ => Ok cfg
          end
      end
  end.

(** The variables [applyEnvOverrides] reads. *)
Definition override_keys : list string :=
  ["MC_SERVER_HOST"; "MC_SERVER_PORT"; "MC_COLLECTOR_INTERVAL"; "MC_SHIPPER_TYPE";
   "MC_SHIPPER_ENDPOINT"; "MC_TLS_ENABLED"; "MC_TLS_CERT_FILE"; "MC_TLS_KEY_FILE";
   "MC_TLS_CA_FILE"].

End config.

(** * Properties *)

(** ** The library models on the examples of the Go documentation *)
Section Samples.
Import Go.

Example TrimSpace_sample :
  TrimSpace (str (map byte [9; 10; 32]%nat) +:+ "Hello, Gophers"
             +:+ str (map byte [32; 10; 9; 13; 10]%nat)) = "Hello, Gophers".
Proof. vm_compute. reflexivity. Qed.

Example Fields_sample : Fields "  foo bar  baz   " = ["foo"; "bar"; "baz"].
Proof. vm_compute. reflexivity. Qed.

Example Base_samples :
  Base "/foo/bar/baz.js" = "baz.js" /\ Base "/foo/bar/baz/" = "baz" /\
  Base "dev.txt" = "dev.txt" /\ Base "" = "." /\ Base "/" = "/" /\ Base "../todo.txt" = "todo.txt".
Proof. vm_compute. repeat split. Qed.

Example Ext_samples :
  Ext "index" = "" /\ Ext "index.js" = ".js" /\ Ext "main.test.js" = ".js".
Proof. vm_compute. repeat split. Qed.

Example ToLower_sample : ToLower "Gopher" = "gopher".
Proof. vm_compute. reflexivity. Qed.

Example FindStringSubmatch_samples :
  regexp.FindStringSubmatch (regexp.MustCompile "a(x*)b(y|z)c") "-axxxbyc-"
    = ["axxxbyc"; "xxx"; "y"] /\
  regexp.FindStringSubmatch (regexp.MustCompile "a(x*)b(y|z)c") "-abzc-"
    = ["abzc"; ""; "z"].
Proof. vm_compute. split; reflexivity. Qed.

(** Text that is not ASCII is read rune by rune: [.] takes the two
    bytes of the degree sign and the three of the euro sign, a match
    does not start inside a rune, and a byte that is no valid encoding
    is one rune. *)
Example rune_samples :
  regexp.FindStringSubmatch (regexp.MustCompile "(\d+).C") (str (map byte [52; 50; 194; 176; 67]%nat))
    = [str (map byte [52; 50; 194; 176; 67]%nat); "42"] /\
  regexp.FindStringSubmatch (regexp.MustCompile "..$") (str (map byte [226; 130; 172]%nat)) = [] /\
  regexp.FindStringSubmatch (regexp.MustCompile "^[^a]$") (str (map byte [226; 130; 172]%nat))
    = [str (map byte [226; 130; 172]%nat)] /\
  regexp.FindStringSubmatch (regexp.MustCompile "^.(.)") (str (map byte [176; 194; 176]%nat))
    = [str (map byte [176; 194; 176]%nat); str (map byte [194; 176]%nat)].
Proof. vm_compute. repeat split. Qed.

(** Patterns outside the modelled syntax go to the library: for a
    counted repetition and for a repetition of something that can match
    the empty string the reference engine answers what [lib] answers. *)
Example outside_samples (lib : regexp.Library) :
  regexp.compile_error (E := regexp.reference lib) "(\d{1,3})"
    = regexp.lib_compile_error lib "(\d{1,3})" /\
  regexp.compile_error (E := regexp.reference lib) "(|a)*"
    = regexp.lib_compile_error lib "(|a)*" /\
  (forall s, regexp.FindStringSubmatch (E := regexp.reference lib) (regexp.MustCompile "(a*)+") s
             = regexp.lib_FindStringSubmatch lib "(a*)+" s).
Proof. repeat split. Qed.

Example FindAllStringSubmatch_samples :
  regexp.FindAllStringSubmatch (regexp.MustCompile "a(x*)b") "-axxb-ab-"
    = [["axxb"; "xx"]; ["ab"; ""]] /\
  regexp.FindAllStringSubmatch (regexp.MustCompile "a*") "baaab" = [[""]; ["aaa"]; [""]].
Proof. vm_compute. split; reflexivity. Qed.

Example ParseFloat_samples :
  strconv.ParseFloat "3.1415926535" = Ok (S754_finite false 7074237751826244 (-51)) /\
  strconv.ParseFloat "0.1" = Ok (S754_finite false 7205759403792794 (-56)) /\
  strconv.ParseFloat "1e400" = Err (strconv.range_error "1e400") /\
  strconv.ParseFloat "1_000" = Ok (float64_of_Z 1000) /\
  strconv.ParseFloat "0x1p-2" = Ok (S754_finite false 4503599627370496 (-54)) /\
  strconv.ParseFloat "+Inf" = Ok (S754_infinity false) /\
  strconv.ParseFloat "abc" = Err (strconv.syntax_error "abc").
Proof. vm_compute. repeat split. Qed.

Example ScanLines_sample :
  bufio.ScanLines ("a" +:+ str [byte 13; byte 10] +:+ str [byte 10] +:+ "b") = ["a"; ""; "b"].
Proof. vm_compute. reflexivity. Qed.

Example seconds_samples :
  time.seconds 15 = 15000000000 /\ time.seconds 9223372037 = -9223372036709551616.
Proof. vm_compute. split; reflexivity. Qed.

End Samples.

(** ** The reference engine *)
Section Matcher.
Import Go Go.regexp Go.regexp.syntax Go.regexp.backtrack.

(** The first rune of a text that is not empty takes at least one byte,
    and no more than there are. *)
Lemma DecodeRune_width c s :
  (1 <= snd (utf8.DecodeRune (c :: s)) <= length (c :: s))%nat.
Proof.
  unfold utf8.DecodeRune.
  repeat match goal with
  | |- context [if ?b then _ else _] => destruct b
  | |- context [match ?l with [] => _ | _ :: _ => _ end] => destruct l
  end; cbn [snd length]; lia.
Qed.

(** A byte below 128 is its own rune; the rune of any other first byte
    is not below 128. *)
Lemma DecodeRune_ascii c s :
  utf8.code c < 128 -> utf8.DecodeRune (c :: s) = (utf8.code c, 1%nat).
Proof.
  intros H. unfold utf8.DecodeRune. apply Z.ltb_lt in H. by rewrite H.
Qed.

Lemma code_range c : 0 <= utf8.code c < 256.
Proof.
  unfold utf8.code. pose proof (Ascii.nat_ascii_bounded c). lia.
Qed.

Lemma DecodeRune_high c s :
  128 <= utf8.code c -> 128 <= fst (utf8.DecodeRune (c :: s)).
Proof.
  intros H. unfold utf8.DecodeRune, utf8.between.
  repeat match goal with
  | |- context [if ?b then _ else _] => destruct b eqn:?
  | |- context [match ?l with [] => _ | _ :: _ => _ end] => destruct l
  end; cbn [fst]; unfold utf8.RuneError; try lia;
  repeat match goal with
  | H : (_ || _)%bool = false |- _ => apply orb_false_iff in H as [? ?]
  | H : negb _ = false |- _ => apply negb_false_iff in H
  | H : (_ && _)%bool = true |- _ => apply andb_true_iff in H as [? ?]
  | H : (_ <? _) = false |- _ => apply Z.ltb_ge in H
  | H : (_ <? _) = true |- _ => apply Z.ltb_lt in H
  | H : (_ <=? _) = true |- _ => apply Z.leb_le in H
  | H : (_ =? _) = true |- _ => apply Z.eqb_eq in H
  | H : (_ =? _) = false |- _ => apply Z.eqb_neq in H
  end; lia.
Qed.

Lemma or_else_some {A} (x : option A) (y : unit -> option A) (a : A) :
  or_else x y = Some a -> x = Some a \/ (x = None /\ y tt = Some a).
Proof. destruct x; simpl; intros H; [left | right]; auto. Qed.

Lemma star_loop_through body greedy :
  threads_through body ->
  forall n, threads_through (fun t k => star_loop body greedy k n t).
Proof.
  intros Hbody n. induction n as [|n IH]; intros t k tf H; simpl in H.
  - eauto.
  - assert (Hagain :
      body t (star_loop body greedy k n) = Some tf ->
      exists t', k t' = Some tf /\ length (caps t') = length (caps t)).
    { intros Ha. apply Hbody in Ha as (t1 & Ht1 & Hl1).
      apply IH in Ht1 as (t2 & Ht2 & Hl2). exists t2. split; [done | congruence]. }
    destruct greedy; apply or_else_some in H as [H | [_ H]]; eauto.
Qed.

Lemma run_through re : threads_through (run re).
Proof.
  induction re as [| neg rs | | | a IHa b IHb | a IHa b IHb | g a IHa | g a IHa | g a IHa | i a IHa];
    intros t k tf H; cbn [run] in H.
  - eauto.
  - destruct (utf8.DecodeRune (rest t)) as [r [|w]]; [discriminate|].
    destruct (class_mem neg rs r); [|discriminate]. eexists; split; [exact H | done].
  - destruct (pos t =? 0)%nat; [eauto | discriminate].
  - destruct (rest t); [eauto | discriminate].
  - apply IHa in H as (t1 & H1 & L1). apply IHb in H1 as (t2 & H2 & L2).
    exists t2. split; [done | congruence].
  - apply or_else_some in H as [H | [_ H]]; eauto.
  - exact (star_loop_through (run a) g IHa _ _ _ _ H).
  - apply IHa in H as (t1 & H1 & L1).
    apply (star_loop_through (run a) g IHa) in H1 as (t2 & H2 & L2).
    exists t2. split; [done | congruence].
  - destruct g; apply or_else_some in H as [H | [_ H]]; eauto.
  - apply IHa in H as (t1 & H1 & L1). eexists; split; [exact H1 |].
    simpl. rewrite length_insert. done.
Qed.

Lemma search_length n re : forall p r m,
  search n re p r = Some m -> length m = S (MaxCap re).
Proof.
  induction n as [|n IH]; intros p r m H; simpl in H; [discriminate|].
  destruct (run re _ Some) as [t|] eqn:E.
  - apply run_through in E as (t' & Ht' & L). simplify_eq.
    rewrite length_insert, L. simpl. by rewrite length_replicate.
  - destruct (utf8.DecodeRune r) as [r0 [|w]]; [discriminate | eauto].
Qed.

(** The reference matcher answers nil or one string for the match and
    one for each group. *)
Lemma find_length re s :
  find re s = [] \/ length (find re s) = S (MaxCap re).
Proof.
  unfold find, find_from. destruct (search _ re 0 (chars s)) as [m|] eqn:E; [right | by left].
  unfold submatches. rewrite length_map. by eapply search_length.
Qed.

(** The reference engine keeps the contract of the package when the
    library behind it does; without a library it keeps it. *)
Lemma reference_contract (lib : Library) :
  (forall p s, lib_FindStringSubmatch lib p s = [] \/
               length (lib_FindStringSubmatch lib p s) = S (lib_NumSubexp lib p)) ->
  Contract (reference lib).
Proof.
  intros Hlib re s. cbn.
  destruct (syntax.modelled (expr re)); [apply find_length | apply Hlib].
Qed.

Lemma standalone_contract : Contract standalone.
Proof. apply reference_contract. intros p s. by left. Qed.

(** A pattern that compiles is the source text of its regexp. *)
Lemma Compile_expr {E : Engine} pattern re :
  Compile pattern = Ok re -> expr re = pattern.
Proof.
  unfold Compile. destruct (compile_error pattern); [discriminate|]. by intros [= <-].
Qed.

End Matcher.

(** ** Strings and paths *)
Section Strings.
Import Go.

Lemma chars_app a b : chars (a +:+ b) = chars a ++ chars b.
Proof. induction a as [|c a IH]; simpl; [done | by rewrite IH]. Qed.

Lemma str_chars s : str (chars s) = s.
Proof. apply String.string_of_list_ascii_of_string. Qed.

Lemma chars_str l : chars (str l) = l.
Proof. apply String.list_ascii_of_string_of_list_ascii. Qed.

Lemma take_while_app_stop {A} (f : A -> bool) l x r :
  forallb f l = true -> f x = false -> take_while f (l ++ x :: r) = l.
Proof.
  induction l as [|y l IH]; simpl; intros Hl Hx.
  - by rewrite Hx.
  - apply andb_true_iff in Hl as [-> Hl]. by rewrite IH.
Qed.

(** The base name of [dir/name] is [name], whatever the directory. *)
Lemma Base_strips_directory dir name :
  name <> "" ->
  forallb (fun c => negb (is_sep c)) (chars name) = true ->
  Base (dir +:+ "/" +:+ name) = name.
Proof.
  intros Hne Hns. unfold Base.
  destruct (dir +:+ "/" +:+ name) eqn:E.
  { destruct dir; discriminate. }
  rewrite <- E. clear E.
  rewrite !chars_app, !rev_app_distr. change (rev (chars "/")) with ["/"%char].
  assert (forallb (fun c => negb (is_sep c)) (rev (chars name)) = true) as Hr.
  { rewrite forallb_forall in *. intros c Hc. apply Hns. by apply in_rev. }
  destruct (rev (chars name)) as [|c r] eqn:Er.
  { apply (f_equal (@rev _)) in Er. rewrite rev_involutive in Er. simpl in Er.
    destruct name; [done | discriminate]. }
  cbn [app drop_while]. simpl in Hr. apply andb_true_iff in Hr as [Hc Hr].
  apply negb_true_iff in Hc. rewrite Hc.
  replace (c :: (r ++ ["/"%char]) ++ rev (chars dir))
    with ((c :: r) ++ "/"%char :: rev (chars dir)) by (simpl; by rewrite <- app_assoc).
  rewrite take_while_app_stop; [| by simpl; rewrite Hc, Hr | done].
  rewrite <- Er, rev_involutive.
  destruct (chars name) eqn:En; [by rewrite <- (str_chars name), En in Hne |].
  by rewrite <- En, str_chars.
Qed.

Lemma take_while_all {A} (f : A -> bool) l :
  forallb f l = true -> take_while f l = l.
Proof.
  induction l as [|y l IH]; simpl; [done|].
  intros H. apply andb_true_iff in H as [-> Hl]. by rewrite IH.
Qed.

(** The base name of a path without a slash is the path. *)
Lemma Base_plain name :
  name <> "" ->
  forallb (fun c => negb (is_sep c)) (chars name) = true ->
  Base name = name.
Proof.
  intros Hne Hns. unfold Base. destruct name as [|c0 s0] eqn:En; [done|]. rewrite <- En in *.
  assert (forallb (fun c => negb (is_sep c)) (rev (chars name)) = true) as Hr.
  { rewrite forallb_forall in *. intros c Hc. apply Hns. by apply in_rev. }
  destruct (rev (chars name)) as [|c r] eqn:Er.
  { apply (f_equal (@rev _)) in Er. rewrite rev_involutive in Er. subst name. discriminate. }
  cbn [drop_while]. pose proof Hr as Hr'. simpl in Hr'. apply andb_true_iff in Hr' as [Hc _].
  apply negb_true_iff in Hc. rewrite Hc.
  rewrite take_while_all by done. rewrite <- Er, rev_involutive, str_chars.
  destruct (chars name) eqn:E; [|done]. subst name. discriminate.
Qed.

End Strings.

Ltac fail_step :=
  match goal with
  | |- context [fail_if ?c _] =>
      let E := fresh "E" in destruct c eqn:E; cbn [fail_if result_bind]
  end.

Ltac eqb_prop :=
  repeat match goal with
  | H : String.eqb _ _ = true |- _ => apply String.eqb_eq in H
  | H : String.eqb _ _ = false |- _ => apply String.eqb_neq in H
  end.

(** ** The patterns of the program *)
Section Patterns.
Import Go Go.regexp Go.regexp.syntax Go.regexp.backtrack collector.
Context (lib : regexp.Library).
Local Abbreviation over_lib := (regexp.reference lib).

(** The fixed patterns of the package are in the modelled syntax: over
    any library they compile, to the package variables, with the groups
    the code indexes. *)
Lemma patterns_compile :
  Compile (E := over_lib) metricPattern = Ok metricRegex /\
  Compile (E := over_lib) metricLinePattern = Ok metricLineRegex /\
  Compile (E := over_lib) labelPattern = Ok labelRegex /\
  NumSubexp (E := over_lib) metricLineRegex = 4%nat /\
  NumSubexp (E := over_lib) labelRegex = 2%nat.
Proof. vm_compute. repeat split. Qed.

Lemma metricPattern_modelled :
  modelled metricPattern =
  Some (Concat BeginText
          (Concat (CharClass false [(97, 122); (65, 90); (95, 95); (58, 58)])
             (Concat (Star true (CharClass false
                        [(97, 122); (65, 90); (48, 57); (95, 95); (58, 58)]))
                EndText))).
Proof. vm_compute. reflexivity. Qed.

Lemma class_start c :
  class_mem false [(97, 122); (65, 90); (95, 95); (58, 58)] (utf8.code c) = spec.name_start c.
Proof. destruct c as [[] [] [] [] [] [] [] []]; vm_compute; reflexivity. Qed.

Lemma class_char_ok c :
  class_mem false [(97, 122); (65, 90); (48, 57); (95, 95); (58, 58)] (utf8.code c)
  = spec.name_char c.
Proof. destruct c as [[] [] [] [] [] [] [] []]; vm_compute; reflexivity. Qed.

(** A class of ASCII characters takes one byte of the text, or fails:
    a rune that is not ASCII is not in it. *)
Lemma ascii_class_run rs (f : ascii -> bool) :
  (forall c, class_mem false rs (utf8.code c) = f c) ->
  (forall r, 128 <= r -> class_mem false rs r = false) ->
  forall t k,
    run (CharClass false rs) t k =
    match rest t with
    | c :: r => if f c then k (Thread (S (pos t)) r (caps t)) else None
    | [] => None
    end.
Proof.
  intros Hf Hhigh t k. cbn [run]. destruct (rest t) as [|c r]; [reflexivity|].
  destruct (Z.lt_ge_cases (utf8.code c) 128) as [Hlo | Hhi].
  - rewrite DecodeRune_ascii by done. rewrite Hf, Nat.add_1_r. reflexivity.
  - pose proof (DecodeRune_high c r Hhi) as Hr.
    pose proof (DecodeRune_width c r) as Hw.
    destruct (utf8.DecodeRune (c :: r)) as [r0 w]. cbn [fst snd] in *.
    destruct w as [|w]; [lia|].
    rewrite (Hhigh r0 Hr). rewrite <- Hf, (Hhigh _ Hhi). reflexivity.
Qed.

(** A pattern that starts with [^] matches nowhere but at offset 0. *)
Lemma search_anchored n re : forall p r,
  (0 < p)%nat -> search n (Concat BeginText re) p r = None.
Proof.
  induction n as [|n IH]; intros p r Hp; simpl; [reflexivity|].
  destruct (p =? 0)%nat eqn:E; [apply Nat.eqb_eq in E; lia|].
  destruct (utf8.DecodeRune r) as [r0 [|w]]; [reflexivity|]. apply IH. lia.
Qed.

(** The greedy run over the characters of a class, followed by [$]. *)
Lemma class_run_to_end (f : ascii -> bool)
    (body : thread -> (thread -> option thread) -> option thread)
    (k : thread -> option thread) :
  (forall t k', body t k' =
     match rest t with
     | c :: r => if f c then k' (Thread (S (pos t)) r (caps t)) else None
     | [] => None
     end) ->
  (forall t, k t = match rest t with [] => Some t | _ :: _ => None end) ->
  forall r n p c0, (length r < n)%nat ->
    is_Some (star_loop body true k n (Thread p r c0)) <-> forallb f r = true.
Proof.
  intros Hbody Hk. induction r as [|c r IH]; intros n p c0 Hn;
    (destruct n as [|n]; [simpl in Hn; lia|]); cbn [star_loop forallb].
  - rewrite Hbody, Hk. cbn. split; [done | eauto].
  - simpl in Hn. rewrite Hbody, Hk. cbn [rest pos caps or_else].
    destruct (f c) eqn:Ec; cbn [andb].
    + specialize (IH n (S p) c0 ltac:(lia)).
      destruct (star_loop body true k n (Thread (S p) r c0)) as [tf|] eqn:E.
      * split; [intros _; apply IH; eauto | eauto].
      * split; [intros [? ?]; discriminate |].
        intros H. apply IH in H as [? ?]. discriminate.
    + split; [intros [? ?]; discriminate | discriminate].
Qed.

Lemma forallb_eq {A} (f g : A -> bool) (l : list A) :
  (forall x, f x = g x) -> forallb f l = forallb g l.
Proof. intros H. induction l as [|x l IH]; simpl; [done | by rewrite H, IH]. Qed.

Lemma high_rune_not_in rs r :
  Forall (fun '(lo, hi) => hi < 128) rs -> 128 <= r -> class_mem false rs r = false.
Proof.
  intros Hrs Hr. unfold class_mem. cbn [xorb].
  induction Hrs as [|[lo hi] rs Hhi _ IH]; cbn [existsb]; [reflexivity|].
  rewrite IH, orb_false_r. apply andb_false_iff. right. apply Z.leb_gt. lia.
Qed.

Lemma start_class_ascii r :
  128 <= r -> class_mem false [(97, 122); (65, 90); (95, 95); (58, 58)] r = false.
Proof. apply high_rune_not_in. repeat (constructor; [lia|]). constructor. Qed.

Lemma char_class_ascii r :
  128 <= r -> class_mem false [(97, 122); (65, 90); (48, 57); (95, 95); (58, 58)] r = false.
Proof. apply high_rune_not_in. repeat (constructor; [lia|]). constructor. Qed.

(** Over any library, the compiled metric pattern accepts exactly the
    names of the grammar, whatever bytes the name is made of. *)
Lemma metricRegex_over_library s :
  MatchString (E := over_lib) metricRegex s = spec.metric_name s.
Proof.
  cbn [MatchString reference metricRegex MustCompile expr].
  rewrite metricPattern_modelled.
  unfold matches, find_from, spec.metric_name.
  destruct (chars s) as [|c r]; [reflexivity|].
  cbn [length]. generalize (S (length r)). intros n0. cbn [search].
  repeat change (run (Concat ?a ?b) ?t ?k) with (run a t (fun t' => run b t' k)).
  change (run BeginText ?t ?k) with (if (pos t =? 0)%nat then k t else None).
  cbn [pos Nat.eqb].
  rewrite (ascii_class_run _ spec.name_start class_start start_class_ascii).
  cbn [rest pos caps].
  change (run (Star true ?a) ?t ?k) with (star_loop (run a) true k (S (length (rest t))) t).
  cbn [rest].
  pose proof (DecodeRune_width c r) as Hw.
  assert (forall n w re, search n (Concat BeginText re) (0 + S w) (drop (S w) (c :: r)) = None)
    as Hrest by (intros; apply search_anchored; lia).
  destruct (spec.name_start c); cbn [andb].
  - match goal with
    | |- context [star_loop ?body true ?k ?n ?t] =>
        pose proof (class_run_to_end spec.name_char body k
                      (ascii_class_run _ spec.name_char class_char_ok char_class_ascii)
                      ltac:(done) r n 1%nat (caps t) ltac:(lia)) as H;
        cbn [caps] in H;
        destruct (star_loop body true k n t) as [tf|] eqn:E
    end.
    + symmetry. apply H. eauto.
    + destruct (utf8.DecodeRune (c :: r)) as [r0 [|w]]; cbn [snd] in Hw; [lia|].
      rewrite Hrest.
      destruct (forallb spec.name_char r); [|done].
      destruct (proj2 H eq_refl). discriminate.
  - destruct (utf8.DecodeRune (c :: r)) as [r0 [|w]]; cbn [snd] in Hw; [lia|].
    rewrite Hrest. reflexivity.
Qed.

End Patterns.

(** ** Validation *)
Section Validation.
Import Go Go.regexp collector.

(** The compiled pattern accepts exactly the names of the grammar. *)
Lemma metricRegex_grammar s :
  MatchString metricRegex s = spec.metric_name s.
Proof. exact (metricRegex_over_library no_library s). Qed.

Lemma is_ok_unit (r : result unit) : is_ok r = true <-> r = Ok tt.
Proof. destruct r as [[]|]; simpl; split; congruence. Qed.

(** C1 (amended).  Validation accepts a definition exactly when the
    conditions the specification lists hold (name and metric non-empty,
    metric in the grammar, type gauge or counter, positive interval,
    exactly one source variant) and the variant that is set is filled in:
    a non-empty command vector whose executable is not on the deny-list,
    a non-empty url, or a non-empty path. *)
Theorem validate_accepts_iff (d : PluginDefinition) :
  validatePluginDefinition d = Ok tt <-> spec.listed_conditions d /\ spec.source_filled d.
Proof.
  unfold validatePluginDefinition, spec.listed_conditions, spec.source_filled, spec.sources_set.
  rewrite <- metricRegex_grammar.
  fail_step.
  { apply String.eqb_eq in E. split; [discriminate | tauto]. }
  apply String.eqb_neq in E.
  fail_step.
  { apply String.eqb_eq in E0. split; [discriminate | tauto]. }
  apply String.eqb_neq in E0.
  fail_step.
  { apply negb_true_iff in E1. split; [discriminate | intros ((_ & _ & H & _) & _); congruence]. }
  apply negb_false_iff in E1.
  fail_step.
  { apply andb_true_iff in E2 as [G C]. apply negb_true_iff, String.eqb_neq in G, C.
    split; [discriminate | tauto]. }
  assert (MetricType d = "gauge" \/ MetricType d = "counter") as HT.
  { apply andb_false_iff in E2 as [G | C]; [left | right];
      apply negb_false_iff, String.eqb_eq in G || apply negb_false_iff, String.eqb_eq in C; done. }
  clear E2.
  fail_step.
  { apply Z.leb_le in E2. split; [discriminate | intros ((_ & _ & _ & _ & H & _) & _); lia]. }
  apply Z.leb_gt in E2.
  assert (forall (c0 : Z) (n0 : nat), (c0 = 0 /\ n0 = 0%nat) \/ (c0 = 1 /\ n0 = 1%nat) ->
    (try sourceCount <-
       match HTTP d with
       | Some src =>
           if String.eqb (URL src) ""
           then Err ("plugin " +:+ Name d +:+ ": http source requires 'url'")
           else Ok (c0 + 1)
       | None => Ok c0
       end;
     try sourceCount <-
       match File d with
       | Some src =>
           if String.eqb (Path src) ""
           then Err ("plugin " +:+ Name d +:+ ": file source requires 'path'")
           else Ok (sourceCount + 1)
       | None => Ok sourceCount
       end;
     try _ <- fail_if (sourceCount =? 0)
                ("plugin " +:+ Name d +:+ ": one source must be provided (command/http/file)");
     try _ <- fail_if (1 <? sourceCount)
                ("plugin " +:+ Name d +:+ ": only one source type is allowed");
     Ok tt) = Ok tt
    <-> ((n0 + match HTTP d with Some _ => 1 | None => 0 end
             + match File d with Some _ => 1 | None => 0 end)%nat = 1%nat
         /\ (forall src, HTTP d = Some src -> URL src <> "")
         /\ (forall src, File d = Some src -> Path src <> ""))) as Htail.
  { intros c0 n0 Hc.
    destruct (HTTP d) as [h|]; [destruct (String.eqb (URL h) "") eqn:EU|];
      cbn [result_bind];
      (destruct (File d) as [f|]; [destruct (String.eqb (Path f) "") eqn:EP|]);
      cbn [result_bind];
      eqb_prop;
      destruct Hc as [[-> ->] | [-> ->]]; cbn;
      (split; [try discriminate; intros _; repeat split; intros; simplify_eq; done
              | intros (Hn & Hh & Hf); try done; try lia;
                try (by destruct (Hh _ eq_refl)); try (by destruct (Hf _ eq_refl))]). }
  destruct (Command d) as [csrc|] eqn:EC.
  - destruct (Command_ csrc) as [|cmd0 args] eqn:ECmd; cbn [result_bind].
    { split; [discriminate |]. intros (_ & H & _). destruct (H _ eq_refl) as (? & ? & ? & _).
      congruence. }
    destruct (blacklistedCommand cmd0) eqn:EB; cbn [result_bind].
    { split; [discriminate |]. intros (_ & H & _). destruct (H _ eq_refl) as (? & ? & ? & ?).
      congruence. }
    rewrite (Htail (0 + 1) 1%nat) by (right; done).
    split.
    + intros (? & ? & ?). repeat split; try done. intros src [= <-]. eauto.
    + intros ((_ & _ & _ & _ & _ & ?) & _ & ? & ?). done.
  - cbn [result_bind]. rewrite (Htail 0 0%nat) by (left; done).
    split.
    + intros (? & ? & ?). repeat split; done.
    + intros ((_ & _ & _ & _ & _ & ?) & _ & ? & ?). done.
Qed.

(** C1 as stated fails: a command plugin whose executable is on the
    deny-list, and an [http] plugin with an empty url, meet every listed
    condition and are rejected. *)
Lemma listed_conditions_not_sufficient :
  ~ (validatePluginDefinition examples.shutdown_plugin = Ok tt
     <-> spec.listed_conditions examples.shutdown_plugin) /\
  ~ (validatePluginDefinition examples.http_without_url = Ok tt
     <-> spec.listed_conditions examples.http_without_url).
Proof.
  split; intros [_ H].
  - assert (spec.listed_conditions examples.shutdown_plugin) as L.
    { repeat split; try discriminate; try reflexivity. by left. }
    apply H in L. vm_compute in L. discriminate.
  - assert (spec.listed_conditions examples.http_without_url) as L.
    { repeat split; try discriminate; try reflexivity. by left. }
    apply H in L. vm_compute in L. discriminate.
Qed.

End Validation.

(** ** The deny-list *)
Section DenyList.
Import Go Go.regexp collector.
Context {RE : regexp.Engine}.

Lemma blacklist_deny_list s : s ∈ blacklist <-> In s spec.deny_list.
Proof.
  unfold blacklist, spec.deny_list. rewrite !elem_of_union, !elem_of_singleton.
  simpl. intuition congruence.
Qed.

Lemma deny_list_blacklisted cmd0 :
  In (ToLower (Base cmd0)) spec.deny_list -> blacklistedCommand cmd0 = true.
Proof.
  intros Hin. unfold blacklistedCommand. apply bool_decide_eq_true.
  by apply blacklist_deny_list.
Qed.

(** Every check before the deny-list can only reject. *)
Lemma blacklisted_rejected (d : PluginDefinition) src cmd0 args :
  Command d = Some src ->
  Command_ src = cmd0 :: args ->
  blacklistedCommand cmd0 = true ->
  is_ok (validatePluginDefinition d) = false.
Proof.
  intros HC Hcmd HB. unfold validatePluginDefinition.
  repeat (fail_step; [reflexivity|]).
  rewrite HC, Hcmd, HB. reflexivity.
Qed.

(** C6.  A command definition whose executable, reduced to its base name
    and lowered, is on the deny-list is rejected by validation. *)
Theorem denylisted_command_rejected (d : PluginDefinition) src cmd0 args :
  Command d = Some src ->
  Command_ src = cmd0 :: args ->
  In (ToLower (Base cmd0)) spec.deny_list ->
  is_ok (validatePluginDefinition d) = false.
Proof.
  intros HC Hcmd Hin. apply (blacklisted_rejected d src cmd0 args HC Hcmd).
  by apply deny_list_blacklisted.
Qed.

(** For a path: whatever the directory and whatever the case of the
    letters, an executable whose last path element lowers to an entry of
    the deny-list is rejected. *)
Corollary denylisted_in_any_directory (d : PluginDefinition) src dir name args :
  Command d = Some src ->
  (Command_ src = name :: args \/ Command_ src = (dir +:+ "/" +:+ name) :: args) ->
  forallb (fun c => negb (is_sep c)) (chars name) = true ->
  In (ToLower name) spec.deny_list ->
  is_ok (validatePluginDefinition d) = false.
Proof.
  intros HC Hcmd Hns Hin.
  assert (name <> "") as Hne.
  { intros ->. vm_compute in Hin. intuition discriminate. }
  destruct Hcmd as [Hcmd | Hcmd];
    eapply blacklisted_rejected; try exact HC; try exact Hcmd;
    apply deny_list_blacklisted.
  - by rewrite Base_plain.
  - by rewrite Base_strips_directory.
Qed.

End DenyList.

Section DenyListExample.
Import Go collector.

Lemma denylisted_command_rejected_witness :
  is_ok (validatePluginDefinition examples.shutdown_plugin) = false.
Proof.
  apply (denylisted_command_rejected examples.shutdown_plugin
           {| Command_ := ["/usr/local/bin/ShutDown"; "-h"; "now"] |}
           "/usr/local/bin/ShutDown" ["-h"; "now"]).
  - reflexivity.
  - reflexivity.
  - vm_compute. tauto.
Defined.

End DenyListExample.
(** ** Parsing values and exposition text *)
Section Parsing.
Import Go Go.regexp collector.

(** In regex mode [parseValue] goes by what [FindStringSubmatch] answers,
    whatever the engine: the second string, if there is one, is parsed
    as a float, and otherwise the result is the error of a pattern that
    did not match a group. *)
Lemma parseValue_regex_mode {E : Engine} raw re rr rm :
  parseValue raw (regex_parser re rr rm) =
  Returns (match FindStringSubmatch re raw with
           | _ :: m1 :: _ => strconv.ParseFloat m1
           | _ => Err (no_capture rr)
           end).
Proof.
  unfold parseValue, regex_parser. cbn.
  destruct (FindStringSubmatch re raw) as [|m0 [|m1 ms]]; reflexivity.
Qed.

(** C7.  For every engine of package [regexp]: in regex mode
    [parseValue] parses the first capture group of the match that
    [FindStringSubmatch] finds (the leftmost, the first match) as a
    float; it answers an error when there is no match and, for an engine
    that keeps the contract of the package, when the pattern has no
    capture group.  With the pattern [(\d+)] the text [rx=118273 bytes]
    gives 118273; with [\d+], which has no group, it gives an error:
    both patterns are in the modelled syntax, and the reference engine
    decides them over any library. *)
Theorem parse_value_regex :
  (forall (E : Engine) raw re rr rm,
     parseValue raw (regex_parser re rr rm) =
     Returns (match FindStringSubmatch re raw with
              | _ :: m1 :: _ => strconv.ParseFloat m1
              | _ => Err (no_capture rr)
              end)) /\
  (forall (E : Engine), Contract E -> forall raw re rr rm,
     FindStringSubmatch re raw = [] \/ NumSubexp re = 0%nat ->
     parseValue raw (regex_parser re rr rm) = Returns (Err (no_capture rr))) /\
  (forall lib : Library,
     exists p, normalizeParser (E := reference lib) examples.digits_group = Ok p /\
               parseValue "rx=118273 bytes" p = Returns (Ok (float64_of_Z 118273))) /\
  (forall lib : Library,
     exists p e, normalizeParser (E := reference lib) examples.digits_only = Ok p /\
                 parseValue "rx=118273 bytes" p = Returns (Err e)).
Proof.
  split; [intros; apply parseValue_regex_mode|]. split; [|split].
  - intros E HE raw re rr rm H. rewrite parseValue_regex_mode.
    destruct H as [-> | H0]; [reflexivity|].
    destruct (HE re raw) as [-> | L]; [reflexivity|].
    rewrite H0 in L. destruct (FindStringSubmatch re raw) as [|m0 [|m1 ms]]; [done..|].
    simpl in L. lia.
  - intros lib. eexists. split; [vm_compute; reflexivity|]. vm_compute. reflexivity.
  - intros lib. do 2 eexists. split; [vm_compute; reflexivity|]. vm_compute. reflexivity.
Qed.

Lemma parse_value_regex_witness :
  parseValue "no digits here" (regex_parser (MustCompile "(\d+)") "(\d+)" "regex")
  = Returns (Err (no_capture "(\d+)")).
Proof.
  apply (proj1 (proj2 parse_value_regex) standalone standalone_contract).
  left. vm_compute. reflexivity.
Defined.

(** C5.  The two-line body of the example gives one metric, a counter
    named [http_requests] of value 1027 with the labels [method] and
    [endpoint]; the timestamp is dropped. *)
Theorem exposition_example (t : string) :
  parsePrometheusMetrics t examples.exposition_body =
  [ Metric.mk "http_requests"
      (Some (<["method" := "GET"]> {[ "endpoint" := t ]}))
      (float64_of_Z 1027) "counter" ].
Proof. vm_compute. reflexivity. Qed.

End Parsing.
(** ** Building runtimes *)
Section Runtime.
Import Go Go.regexp collector.
Context {RE : regexp.Engine}.

Lemma buildRuntime_ok_iff d prefix now :
  is_ok (buildRuntime d prefix now)
  = (is_ok (validatePluginDefinition d) && is_ok (normalizeParser (Parser d)))%bool.
Proof.
  unfold buildRuntime. destruct (validatePluginDefinition d) as [[]|]; cbn [result_bind is_ok andb];
    [|done]. by destruct (normalizeParser (Parser d)).
Qed.

(** The timeout of a runtime that is built. *)
Lemma buildRuntime_timeout d prefix now rt :
  buildRuntime d prefix now = Ok rt ->
  timeout rt = if 0 <? TimeoutSeconds d then time.seconds (TimeoutSeconds d)
               else defaultPluginTimeout.
Proof.
  unfold buildRuntime. destruct (validatePluginDefinition d) as [[]|]; cbn [result_bind];
    [|discriminate].
  destruct (normalizeParser (Parser d)); [|discriminate]. by intros [= <-].
Qed.

(** C10.  For every engine of package [regexp], a definition that
    passes validation with a timeout_seconds that is zero (also: absent)
    or negative builds exactly when its parser is accepted, and then the
    runtime built has the default timeout of 10 seconds; whether a
    definition builds does not depend on timeout_seconds. *)
Theorem default_timeout (d : PluginDefinition) (prefix : string) (now : time.Time) :
  validatePluginDefinition d = Ok tt ->
  TimeoutSeconds d <= 0 ->
  (is_ok (buildRuntime d prefix now) = is_ok (normalizeParser (Parser d))) /\
  (forall rt, buildRuntime d prefix now = Ok rt ->
     timeout rt = defaultPluginTimeout /\ timeout rt = 10 * 1000000000) /\
  (forall pr, normalizeParser (Parser d) = Ok pr ->
     exists rt, buildRuntime d prefix now = Ok rt /\ timeout rt = 10 * 1000000000) /\
  (forall t, is_ok (buildRuntime (with_TimeoutSeconds d t) prefix now)
             = is_ok (buildRuntime d prefix now)).
Proof.
  intros Hv Ht.
  assert (forall rt, buildRuntime d prefix now = Ok rt ->
            timeout rt = defaultPluginTimeout /\ timeout rt = 10 * 1000000000) as Hrt.
  { intros rt H. apply buildRuntime_timeout in H.
    assert ((0 <? TimeoutSeconds d) = false) as Hto by (apply Z.ltb_ge; lia).
    rewrite Hto in H. rewrite H. split; reflexivity. }
  split; [|split; [exact Hrt | split]].
  - by rewrite buildRuntime_ok_iff, Hv.
  - intros pr Hpr.
    destruct (buildRuntime d prefix now) as [rt|e] eqn:Eb.
    + exists rt. split; [reflexivity | by apply Hrt].
    + pose proof (buildRuntime_ok_iff d prefix now) as Hok.
      rewrite Eb, Hv, Hpr in Hok. discriminate.
  - intros t. rewrite !buildRuntime_ok_iff. reflexivity.
Qed.

End Runtime.

Section RuntimeExamples.
Import Go Go.regexp collector.

Lemma default_timeout_witness :
  exists rt, buildRuntime examples.rx_bytes "metricsd_plugin_" 0 = Ok rt /\
             timeout rt = 10 * 1000000000.
Proof.
  destruct (buildRuntime examples.rx_bytes "metricsd_plugin_" 0) as [rt|] eqn:Eb;
    [|vm_compute in Eb; discriminate].
  exists rt. split; [reflexivity|].
  apply (default_timeout examples.rx_bytes "metricsd_plugin_" 0);
    [vm_compute; reflexivity | simpl; lia | exact Eb].
Defined.

(** A definition whose pattern is outside the modelled syntax: over any
    library that compiles the pattern, it builds, with the default
    timeout. *)
Example default_timeout_counted_repetition (lib : Library) now :
  lib_compile_error lib (Regex (Parser examples.load_average)) = None ->
  exists rt, buildRuntime (E := reference lib) examples.load_average "metricsd_plugin_" now
             = Ok rt /\
             timeout rt = 10 * 1000000000 /\
             regex (parser rt) = Some (MustCompile "^(\d{1,3}\.\d+)").
Proof.
  intros Hlib. eexists. split; [|split].
  - unfold buildRuntime.
    replace (validatePluginDefinition (E := reference lib) examples.load_average)
      with (Ok tt : result unit) by (vm_compute; reflexivity).
    cbn [result_bind]. unfold normalizeParser. cbn [Parser Mode Regex examples.load_average].
    cbn [String.eqb Ascii.eqb Bool.eqb pluginParserNumber pluginParserRegex].
    unfold Compile. cbn [compile_error reference].
    replace (syntax.modelled "^(\d{1,3}\.\d+)") with (@None syntax.Regexp)
      by (vm_compute; reflexivity).
    cbn [Parser Regex examples.load_average] in Hlib. rewrite Hlib. reflexivity.
  - reflexivity.
  - reflexivity.
Qed.

End RuntimeExamples.

(** ** Label enrichment *)
Section Enrichment.
Import Go collector orchestrator.

Lemma assign_all_lookup (src dst : gmap string string) k :
  assign_all src dst !! k = match src !! k with Some v => Some v | None => dst !! k end.
Proof.
  unfold assign_all.
  apply (map_fold_weak_ind (fun r m => r !! k = match m !! k with Some v => Some v | None => dst !! k end)).
  - by rewrite lookup_empty.
  - intros i x m r Hi IH. destruct (decide (i = k)) as [->|Hne].
    + by rewrite !lookup_insert_eq.
    + by rewrite !lookup_insert_ne.
Qed.

Lemma assign_all_empty (src : gmap string string) : assign_all src ∅ = src.
Proof.
  apply map_eq. intros k. rewrite assign_all_lookup, lookup_empty. by destruct (src !! k).
Qed.

Lemma merge_global_lookup (gl init : gmap string string) k :
  map_fold merge_global init gl !! k =
  if decide (k = "hostname") then init !! k
  else match gl !! k with Some v => Some v | None => init !! k end.
Proof.
  apply (map_fold_weak_ind (fun r m => r !! k =
           if decide (k = "hostname") then init !! k
           else match m !! k with Some v => Some v | None => init !! k end)).
  - rewrite lookup_empty. by destruct (decide _).
  - intros i x m r Hi IH. unfold merge_global.
    destruct (String.eqb i "hostname") eqn:E; cbn [negb].
    + apply String.eqb_eq in E. subst i. destruct (decide (k = "hostname")) as [->|Hne]; [done|].
      by rewrite lookup_insert_ne.
    + apply String.eqb_neq in E. destruct (decide (i = k)) as [->|Hne].
      * rewrite !lookup_insert_eq. by destruct (decide _).
      * by rewrite !lookup_insert_ne.
Qed.

(** The labels of a metric after enrichment, key by key. *)
Lemma add_labels_lookup o m k :
  exists labels, Metric.Labels (add_labels o m) = Some labels /\
    labels !! k =
      if decide (k = "hostname") then Some (hostname o)
      else match globalLabels o !! k with
           | Some v => Some v
           | None => match Metric.Labels m with Some l => l !! k | None => None end
           end.
Proof.
  unfold add_labels. eexists. split; [reflexivity|].
  rewrite merge_global_lookup. destruct (decide (k = "hostname")) as [->|Hne].
  - by rewrite lookup_insert_eq.
  - rewrite lookup_insert_ne by done. destruct (globalLabels o !! k); [done|].
    destruct (Metric.Labels m); [done|]. by rewrite lookup_empty.
Qed.

(** C4.  Every metric of the batch handed to the shipper carries the
    label [hostname] with the orchestrator's host identity, and, for
    every pair of the global-label map, a label with that key: with the
    pair's value, except under the key [hostname], which no global label
    overwrites.  With metrics [a] and [b], global labels [env=prod] and
    host [h1], both shipped metrics carry [hostname=h1] and [env=prod]. *)
Theorem shipped_labels :
  (forall o collected batch m,
     collectAndShip o (Ok collected) = Some batch ->
     m ∈ batch ->
     exists labels, Metric.Labels m = Some labels /\
       labels !! "hostname" = Some (hostname o) /\
       (forall k v, globalLabels o !! k = Some v ->
          labels !! k = Some (if decide (k = "hostname") then hostname o else v))) /\
  collectAndShip (NewOrchestratorWithLabels (Ok "h1") examples.env_prod)
                 (Ok [examples.metric_a; examples.metric_b])
  = Some [ Metric.mk "a" (Some {[ "hostname" := "h1"; "env" := "prod" ]}) (float64_of_Z 1) "gauge";
           Metric.mk "b" (Some {[ "hostname" := "h1"; "env" := "prod" ]}) (float64_of_Z 2) "gauge" ].
Proof.
  split.
  - intros o collected batch m H Hm. simpl in H. injection H as <-.
    unfold addGlobalLabels in Hm. rewrite list_elem_of_In in Hm. rewrite in_map_iff in Hm. destruct Hm as (m0 & <- & _).
    destruct (add_labels_lookup o m0 "hostname") as (labels & HL & Hh).
    exists labels. split; [done|]. split; [by rewrite Hh|].
    intros k v Hk. destruct (add_labels_lookup o m0 k) as (labels' & HL' & Hk').
    rewrite HL in HL'. injection HL' as <-. rewrite Hk', Hk.
    destruct (decide (k = "hostname")); reflexivity.
  - vm_compute. reflexivity.
Qed.

Lemma shipped_labels_witness :
  exists labels,
    Metric.Labels (add_labels (NewOrchestratorWithLabels (Ok "h1") examples.env_prod)
                              examples.metric_a) = Some labels /\
    labels !! "hostname" = Some "h1".
Proof.
  destruct (proj1 shipped_labels
              (NewOrchestratorWithLabels (Ok "h1") examples.env_prod)
              [examples.metric_a; examples.metric_b]
              (addGlobalLabels (NewOrchestratorWithLabels (Ok "h1") examples.env_prod)
                               [examples.metric_a; examples.metric_b])
              (add_labels (NewOrchestratorWithLabels (Ok "h1") examples.env_prod)
                          examples.metric_a)
              eq_refl ltac:(simpl; apply list_elem_of_here))
    as (labels & HL & Hh & _).
  exists labels. split; [exact HL | exact Hh].
Defined.

Lemma hostname_of_labels os (gl : gmap string string) :
  hostname (NewOrchestratorWithLabels os gl) =
  match gl !! "hostname" with
  | Some h => if String.eqb h "" then match os with Ok x => x | Err _ => "unknown" end else h
  | None => match os with Ok x => x | Err _ => "unknown" end
  end.
Proof.
  unfold NewOrchestratorWithLabels. cbn [hostname].
  destruct (gl !! "hostname") as [h|]; [|done]. by destruct (String.eqb h "").
Qed.

(** C8 (amended).  When the global-label map has a [hostname] entry that
    is not empty, the orchestrator built from it has that value as its
    host identity, whatever the operating system answers, and every
    metric it enriches carries it as the label [hostname]. *)
Theorem hostname_override os (gl : gmap string string) (h : string) :
  gl !! "hostname" = Some h ->
  h <> "" ->
  hostname (NewOrchestratorWithLabels os gl) = h /\
  (forall metrics m, m ∈ addGlobalLabels (NewOrchestratorWithLabels os gl) metrics ->
     exists labels, Metric.Labels m = Some labels /\ labels !! "hostname" = Some h).
Proof.
  intros Hgl Hne.
  assert (hostname (NewOrchestratorWithLabels os gl) = h) as Hh.
  { rewrite hostname_of_labels, Hgl. apply String.eqb_neq in Hne. by rewrite Hne. }
  split; [exact Hh|]. intros metrics m Hm.
  unfold addGlobalLabels in Hm. rewrite list_elem_of_In in Hm. rewrite in_map_iff in Hm.
  destruct Hm as (m0 & <- & _).
  destruct (add_labels_lookup (NewOrchestratorWithLabels os gl) m0 "hostname")
    as (labels & HL & Hk).
  exists labels. split; [done|]. rewrite Hk, Hh. reflexivity.
Qed.

Lemma hostname_override_witness :
  hostname (NewOrchestratorWithLabels (Ok "h1") {[ "hostname" := "edge-7" ]}) = "edge-7".
Proof.
  apply (hostname_override (Ok "h1") {[ "hostname" := "edge-7" ]} "edge-7");
    [reflexivity | discriminate].
Defined.

(** C8 as stated fails: an empty [hostname] entry does not replace the
    detected host name. *)
Lemma empty_hostname_keeps_detected :
  ~ (examples.empty_hostname !! "hostname" = Some "" ->
     hostname (NewOrchestratorWithLabels (Ok "h1") examples.empty_hostname) = "").
Proof. intros H. specialize (H eq_refl). vm_compute in H. discriminate. Qed.

End Enrichment.

(** ** Hot reload *)
Section Reload.
Import Go collector.
Context {RE : regexp.Engine}.

Lemma buildRuntime_def d prefix now rt :
  buildRuntime d prefix now = Ok rt ->
  def rt = d /\ nextRun rt = now /\ interval rt = time.seconds (IntervalSeconds d) /\
  parser_ok (parser rt) /\ validatePluginDefinition d = Ok tt.
Proof.
  unfold buildRuntime. destruct (validatePluginDefinition d) as [[]|]; cbn [result_bind];
    [|discriminate].
  destruct (normalizeParser (Parser d)) as [pr|] eqn:E; [|discriminate].
  intros [= <-]. repeat split. cbn.
  unfold normalizeParser in E.
  repeat match type of E with
  | (if ?c then _ else _) = _ => destruct c eqn:?
  | match ?c with _ => _ end = _ => destruct c eqn:?
  end; try discriminate; injection E as <-; unfold parser_ok; cbn; intros; done.
Qed.

(** The reload builds the runtimes of the definitions that validate, in
    their order, and skips the others. *)
Lemma reload_all_spec w prefix defs : forall acc n,
  let '(rts, _) := reload_all w prefix defs acc n in
  map def rts = map def acc ++ filter (fun d => buildable d = true) defs /\
  (runtimes_ok acc -> runtimes_ok rts).
Proof.
  induction defs as [|d defs IH]; intros acc n; cbn [reload_all].
  - split; [by rewrite app_nil_r | done].
  - assert (is_ok (buildRuntime d prefix (Now w n)) = buildable d) as Hnow.
    { by rewrite buildRuntime_ok_iff. }
    destruct (buildRuntime d prefix (Now w n)) as [rt|] eqn:E; simpl in Hnow.
    + specialize (IH (acc ++ [rt]) (S n)). destruct (reload_all _ _ _ _ _) as [rts n'].
      destruct IH as [IH1 IH2]. apply buildRuntime_def in E as (Hd & _ & _ & Hp & _).
      split.
      * rewrite IH1, map_app. cbn [map filter]. rewrite filter_cons.
        destruct (decide _) as [_|Hn]; [|congruence].
        rewrite Hd, <- app_assoc. reflexivity.
      * intros Hacc. apply IH2. apply Forall_app. split; [done|]. by constructor.
    + specialize (IH acc n). destruct (reload_all _ _ _ _ _) as [rts n'].
      destruct IH as [IH1 IH2]. split; [|done].
      rewrite IH1, filter_cons. destruct (decide _) as [Hy|_]; [congruence | done].
Qed.

(** C2.  The reload check leaves the collector, and so its runtime set,
    as it was when the newest modification time of the plugins directory
    is not strictly after the last one seen, and when loading the
    definitions answers an error; [Collect] then runs over the old set.
    The runtime set changes only when the directory is newer and the
    load succeeds; it then holds the runtimes of the loaded definitions
    that build. *)
Theorem reload_keeps_or_replaces (w : World) (p : PluginCollector) :
  let modTime := latestPluginsMTime w (pluginsDir p) in
  (time.After modTime (lastMod p) = false -> maybeReload w p = (p, 0%nat)) /\
  (forall e, LoadPlugins w (pluginsDir p) = Err e -> maybeReload w p = (p, 0%nat)) /\
  (forall ctx, maybeReload w p = (p, 0%nat) ->
     Plugin.Collect w ctx p =
     (do (ms, pls) <- collect_loop w ctx (Now w 0) (plugins p) [];
      Returns (ms, None, set_plugins p pls))) /\
  (plugins (fst (maybeReload w p)) <> plugins p ->
     pluginsDir p <> "" /\
     time.After modTime (lastMod p) = true /\
     exists defs, LoadPlugins w (pluginsDir p) = Ok defs /\
       plugins (fst (maybeReload w p)) = fst (reload_all w (prefix p) defs [] 0) /\
       map def (plugins (fst (maybeReload w p)))
       = filter (fun d => buildable d = true) defs).
Proof.
  intros modTime. unfold maybeReload. fold modTime.
  destruct (String.eqb (pluginsDir p) "") eqn:Edir.
  { repeat split; try done.
    - intros ctx _. unfold Plugin.Collect, maybeReload. rewrite Edir. reflexivity. }
  apply String.eqb_neq in Edir.
  destruct (time.After modTime (lastMod p)) eqn:Eafter; cbn [negb].
  2:{ repeat split; try done.
      intros ctx _. unfold Plugin.Collect, maybeReload. fold modTime.
      apply String.eqb_neq in Edir. rewrite Edir, Eafter. reflexivity. }
  destruct (LoadPlugins w (pluginsDir p)) as [defs|e0] eqn:Eload.
  2:{ repeat split; try done.
      intros ctx _. unfold Plugin.Collect, maybeReload. fold modTime.
      apply String.eqb_neq in Edir. rewrite Edir, Eafter, Eload. reflexivity. }
  pose proof (reload_all_spec w (prefix p) defs [] 0%nat) as Hspec.
  destruct (reload_all w (prefix p) defs [] 0) as [rts n] eqn:Erel.
  destruct Hspec as [Hdefs _]. cbn [map app] in Hdefs. cbn [fst plugins].
  split; [done|]. split; [done|]. split.
  - intros ctx Heq. unfold Plugin.Collect, maybeReload. fold modTime.
    apply String.eqb_neq in Edir. rewrite Edir, Eafter, Eload, Erel. cbn [negb].
    injection Heq as Hp Hn. subst n. rewrite Hp. reflexivity.
  - intros _. repeat split; try done. exists defs. repeat split; try done. by rewrite Erel.
Qed.

End Reload.

Section ReloadExamples.
Import Go collector.

Lemma reload_keeps_or_replaces_witness :
  maybeReload examples.broken_reload_world examples.running = (examples.running, 0%nat).
Proof.
  apply (proj1 (proj2 (reload_keeps_or_replaces examples.broken_reload_world examples.running))
           "failed to parse plugin file plugins/p.json: unexpected end of JSON input").
  vm_compute. reflexivity.
Defined.

(** A reload that succeeds: the file that is not [.json] is ignored, the
    definition that does not validate is dropped, and the runtime set is
    the new generation. *)
Example reload_replaces_generation :
  exists p n rt,
    maybeReload examples.fresh_reload_world examples.running = (p, n) /\
    plugins p = [rt] /\ def rt = examples.huge_interval /\
    lastMod p = examples.start_2026 + 5 /\ n = 1%nat.
Proof. do 3 eexists. vm_compute. repeat split. Qed.

End ReloadExamples.

(** ** Collecting *)
Section Collecting.
Import Go collector.
Context {RE : regexp.Engine}.

Lemma parseValue_returns raw pr :
  parser_ok pr -> exists r, parseValue raw pr = Returns r.
Proof.
  intros Hok. unfold parseValue.
  destruct (String.eqb (mode pr) pluginParserNumber); [eauto|].
  destruct (String.eqb (mode pr) pluginParserRegex) eqn:E; [|eauto].
  apply String.eqb_eq in E. specialize (Hok E).
  destruct (regex pr) as [re|]; [|done].
  destruct (regexp.FindStringSubmatch re raw) as [|m0 [|m1 ms]]; eauto.
Qed.

Lemma execute_returns w ctx pl :
  parser_ok (parser pl) -> exists r, execute w ctx pl = Returns r.
Proof.
  intros Hok. unfold execute, runCommand, runHTTP, runFile.
  repeat match goal with
  | |- exists r, parseValue ?raw ?pr = Returns r => by apply parseValue_returns
  | |- exists r, Returns _ = Returns r => eauto
  | |- exists r, (if ?c then _ else _) = Returns r => destruct c
  | |- exists r, match ?c with _ => _ end = Returns r => destruct c
  end.
Qed.

Lemma collect_loop_rearms w ctx now pls : forall acc ms pls',
  collect_loop w ctx now pls acc = Returns (ms, pls') ->
  Forall2 (rearmed now) pls pls'.
Proof.
  induction pls as [|pl pls IH]; intros acc ms pls' H; cbn [collect_loop] in H.
  - injection H as <- <-. constructor.
  - destruct (time.Before now (nextRun pl)) eqn:Edue.
    + destruct (collect_loop w ctx now pls acc) as [[ms1 rest]|] eqn:E; [|discriminate].
      cbn in H. injection H as <- <-. constructor; [left; done | eauto].
    + destruct (execute w ctx pl) as [[value|err]|]; cbn [outcome_bind] in H; [| |discriminate].
      * destruct (collect_loop w ctx now pls _) as [[ms1 rest]|] eqn:E; [|discriminate].
        cbn in H. injection H as <- <-. constructor; [right; done | eauto].
      * destruct (collect_loop w ctx now pls _) as [[ms1 rest]|] eqn:E; [|discriminate].
        cbn in H. injection H as <- <-. constructor; [right; done | eauto].
Qed.

Lemma collect_loop_returns w ctx now pls : forall acc,
  runtimes_ok pls ->
  exists ms pls', collect_loop w ctx now pls acc = Returns (ms, pls') /\ runtimes_ok pls'.
Proof.
  induction pls as [|pl pls IH]; intros acc Hok; cbn [collect_loop].
  - do 2 eexists. split; [reflexivity | constructor].
  - apply Forall_cons in Hok as [Hpl Hok].
    destruct (time.Before now (nextRun pl)).
    + destruct (IH acc Hok) as (ms & rest & -> & Hrest). cbn.
      do 2 eexists. split; [reflexivity|]. by constructor.
    + destruct (execute_returns w ctx pl Hpl) as [[value|err] ->]; cbn [outcome_bind].
      * destruct (IH (acc ++ [Metric.mk (metricKey pl)
                       (Some (<["plugin" := Name (def pl)]> (assign_all (Labels (def pl)) ∅)))
                       value (MetricType (def pl))]) Hok) as (ms & rest & -> & Hrest).
        cbn. do 2 eexists. split; [reflexivity|]. by constructor.
      * destruct (IH acc Hok) as (ms & rest & -> & Hrest). cbn.
        do 2 eexists. split; [reflexivity|]. by constructor.
Qed.

(** When no interval is negative, no next-due time moves back. *)
Lemma rearmed_forward now a b :
  rearmed now a b -> 0 <= interval a -> nextRun a <= nextRun b.
Proof.
  intros [[_ ->] | [Hdue ->]] Hi; [lia|].
  unfold time.Before in Hdue. apply Z.ltb_ge in Hdue. cbn. unfold time.Add. lia.
Qed.

(** Without a reload and without a negative interval, [Collect] moves no
    next-due time back. *)
Lemma collect_moves_forward w ctx p ms err p' :
  maybeReload w p = (p, 0%nat) ->
  Forall (fun pl => 0 <= interval pl) (plugins p) ->
  Plugin.Collect w ctx p = Returns (ms, err, p') ->
  Forall2 (fun a b => nextRun a <= nextRun b) (plugins p) (plugins p').
Proof.
  intros Hre Hint H. unfold Plugin.Collect in H. rewrite Hre in H.
  destruct (collect_loop w ctx (Now w 0) (plugins p) []) as [[ms1 pls]|] eqn:E;
    cbn in H; [|discriminate].
  injection H as _ _ <-. cbn [plugins set_plugins].
  apply collect_loop_rearms in E. revert Hint.
  induction E as [|a b l l' Hab _ IH]; intros Hint; constructor.
  - apply Forall_cons in Hint as [Ha _]. by eapply rearmed_forward.
  - apply Forall_cons in Hint as [_ Hl]. by apply IH.
Qed.

(** A due runtime whose execution fails adds no metric and is re-armed. *)
Lemma failed_execution_rearms w ctx now pl pls acc e :
  time.Before now (nextRun pl) = false ->
  execute w ctx pl = Returns (Err e) ->
  collect_loop w ctx now (pl :: pls) acc =
  (do (ms, rest) <- collect_loop w ctx now pls acc;
   Returns (ms, set_nextRun pl (time.Add now (interval pl)) :: rest)).
Proof. intros Hdue He. cbn [collect_loop]. rewrite Hdue, He. reflexivity. Qed.

(** An interval in seconds that fits in 64 bits of nanoseconds is kept as it is. *)
Lemma seconds_in_range n :
  0 <= n <= 9223372036 -> time.seconds n = n * 1000000000.
Proof.
  intros Hn. unfold time.seconds, time.wrap64, time.Second.
  rewrite Z.mod_small by lia. lia.
Qed.

Lemma build_all_ok w prefix defs : forall acc n rts,
  build_all w prefix defs acc n = Ok rts -> runtimes_ok acc -> runtimes_ok rts.
Proof.
  induction defs as [|d defs IH]; intros acc n rts H Hacc; cbn [build_all] in H.
  - by injection H as <-.
  - destruct (buildRuntime d prefix (Now w n)) as [rt|] eqn:E; cbn [result_bind] in H;
      [|discriminate].
    apply IH in H; [done|]. apply Forall_app. split; [done|].
    constructor; [|constructor]. by apply buildRuntime_def in E as (_ & _ & _ & ? & _).
Qed.

Lemma maybeReload_ok w p :
  runtimes_ok (plugins p) -> runtimes_ok (plugins (fst (maybeReload w p))).
Proof.
  intros Hok. unfold maybeReload.
  destruct (String.eqb (pluginsDir p) ""); [done|].
  destruct (time.After _ _); cbn [negb]; [|done].
  destruct (LoadPlugins w (pluginsDir p)) as [defs|]; [|done].
  pose proof (reload_all_spec w (prefix p) defs [] 0%nat) as Hspec.
  destruct (reload_all w (prefix p) defs [] 0) as [rts n].
  destruct Hspec as [_ Hrts]. cbn. apply Hrts. constructor.
Qed.

(** C9.  The plugin collector's [Collect] returns, with a nil error, from
    every state whose regex-mode parsers hold a compiled pattern, and
    leaves such a state; [NewPluginCollector] only builds such states; a
    [Collect] that returns at all returns a nil error.  The HTTP
    collector's [Collect] always returns a nil error. *)
Theorem collect_never_errors :
  (forall w ctx p,
     runtimes_ok (plugins p) ->
     exists ms p', Plugin.Collect w ctx p = Returns (ms, None, p') /\
                   runtimes_ok (plugins p')) /\
  (forall w prefix dir defs p,
     NewPluginCollector w prefix dir defs = Ok p -> runtimes_ok (plugins p)) /\
  (forall w ctx p ms err p',
     Plugin.Collect w ctx p = Returns (ms, err, p') -> err = None) /\
  (forall w c ctx, snd (HTTP.Collect w c ctx) = None).
Proof.
  split; [|split; [|split]].
  - intros w ctx p Hok. unfold Plugin.Collect.
    pose proof (maybeReload_ok w p Hok) as Hok'.
    destruct (maybeReload w p) as [p1 n]. cbn [fst] in Hok'.
    destruct (collect_loop_returns w ctx (Now w n) (plugins p1) [] Hok')
      as (ms & pls & -> & Hpls).
    cbn. do 2 eexists. split; [reflexivity | exact Hpls].
  - intros w prefix dir defs p H. unfold NewPluginCollector in H.
    destruct (build_all w prefix defs [] 0) as [rts|] eqn:E; cbn [result_bind] in H;
      [|discriminate].
    injection H as <-. cbn. eapply build_all_ok; [exact E | constructor].
  - intros w ctx p ms err p' H. unfold Plugin.Collect in H.
    destruct (maybeReload w p) as [p1 n].
    destruct (collect_loop w ctx (Now w n) (plugins p1) []) as [[ms1 pls]|];
      cbn in H; [|discriminate].
    by injection H as _ <- _.
  - reflexivity.
Qed.

End Collecting.

Section CollectingExamples.
Import Go collector.

(** An ordinary cycle: the due plugin gives one metric, labelled with its
    static label and [plugin], and is re-armed 15 seconds after [now]. *)
Example collect_running :
  exists p' rt',
    Plugin.Collect examples.quiet_world context.Background examples.running =
    Returns ([ Metric.mk "metricsd_plugin_bandwidth_rx_bytes_total"
                 (Some {[ "interface" := "eth0"; "plugin" := "bandwidth_rx" ]})
                 (float64_of_Z 1) "counter" ], None, p') /\
    plugins p' = [rt'] /\
    nextRun rt' = examples.start_2026 + 15 * 1000000000.
Proof. do 2 eexists. vm_compute. repeat split. Qed.

(** C3 (the code departs from it).  A definition with
    interval_seconds = 9223372037 passes validation; its interval in
    nanoseconds wraps around to a negative duration, and the first
    [Collect] re-arms the runtime at a next-due time before the one it
    had. *)
Theorem huge_interval_moves_back :
  validatePluginDefinition examples.huge_interval = Ok tt /\
  exists p rt p' rt' ms,
    NewPluginCollector examples.quiet_world "metricsd_plugin_" "" [examples.huge_interval] = Ok p /\
    plugins p = [rt] /\
    interval rt = -9223372036709551616 /\
    Plugin.Collect examples.quiet_world context.Background p = Returns (ms, None, p') /\
    plugins p' = [rt'] /\
    nextRun rt' < nextRun rt.
Proof.
  split; [vm_compute; reflexivity|].
  do 5 eexists. split; [vm_compute; reflexivity|].
  split; [reflexivity|]. split; [reflexivity|].
  split; [vm_compute; reflexivity|]. split; [reflexivity|]. vm_compute. reflexivity.
Qed.

Lemma collect_never_errors_witness :
  exists ms p', Plugin.Collect examples.quiet_world context.Background examples.running
                = Returns (ms, None, p').
Proof.
  destruct (proj1 collect_never_errors examples.quiet_world context.Background examples.running)
    as (ms & p' & H & _).
  - repeat constructor. intros ?; discriminate.
  - exists ms, p'. exact H.
Defined.

End CollectingExamples.
